(** * NNTP transform proxy (abusenet/NNTP, [main.ts])

    A shallow embedding of the line-transform engine of [main.ts]:
    the command recognizer [parseCommand], the request-side
    authentication substitution [RequestStream], the response-side
    status normalizer [ResponseStream] and the directional pump [pipe].

    Data:
    - a [Uint8Array] is a [list byte];
    - a JavaScript string is the list of its UTF-16 code units, each an [N];
    - [undefined] / [null] is [None].

    The platform functions the program calls ([TextDecoder.decode],
    [TextEncoder.encode], [String.prototype.trim], [split], [includes],
    [Number], [Array.prototype.sort]) are written out after their
    specifications (WHATWG Encoding, ECMA-262).  The credential check
    [validate] of the htpasswd package is an external collaborator and
    is a variable of the development. *)

From Stdlib Require Import NArith ZArith List Bool Lia.
From Stdlib Require Import Strings.Ascii Strings.String Strings.Byte.
Import ListNotations.

Local Open Scope N_scope.
Local Open Scope list_scope.

(** ** Bytes and strings *)

Definition Uint8Array := list byte.

(** A JavaScript string: its UTF-16 code units. *)
Definition jsstring := list N.

(** A literal of the source, as a JavaScript string. *)
Definition str (s : string) : jsstring :=
  map N_of_ascii (list_ascii_of_string s).

(** A literal of the source, as the bytes a client or server sends. *)
Definition bytes (s : string) : Uint8Array := list_byte_of_string s.

Definition CR : N := 13.
Definition LF : N := 10.
Definition SPACE : N := 32.

(** ["\r\n"] as a string and on the wire. *)
Definition crlf : jsstring := [CR; LF].
Definition CRLF : Uint8Array := [x0d; x0a].

Definition byte_of_N (n : N) : byte :=
  match Byte.of_N n with
  | Some b => b
  | None => x00
  end.

Fixpoint jsstring_eqb (a b : jsstring) : bool :=
  match a, b with
  | [], [] => true
  | x :: a', y :: b' => (x =? y) && jsstring_eqb a' b'
  | _, _ => false
  end.

(** [===] between two values that are a string, [null] or [undefined]. *)
Definition strict_eq (a b : option jsstring) : bool :=
  match a, b with
  | Some x, Some y => jsstring_eqb x y
  | None, None => true
  | _, _ => false
  end.

(** Truthiness of a string-or-undefined value: [undefined] and [""] are falsy. *)
Definition truthy (v : option jsstring) : bool :=
  match v with
  | Some (_ :: _) => true
  | _ => false
  end.

(** A value interpolated in a template literal. *)
Definition template (v : option jsstring) : jsstring :=
  match v with
  | Some s => s
  | None => str "undefined"
  end.

(** ** UTF-8 decoding: [decoder.decode] (WHATWG utf-8 decoder, replacement mode) *)

Module UTF8.

Record state := mkState
  { code_point : N; bytes_needed : N; bytes_seen : N;
    lower_boundary : N; upper_boundary : N }.

Definition init : state := mkState 0 0 0 0x80 0xBF.

Definition REPLACEMENT : N := 0xFFFD.

(** The handler on a byte when no sequence is in progress. *)
Definition lead (b : N) : state * list N :=
  if b <=? 0x7F then (init, [b])
  else if (0xC2 <=? b) && (b <=? 0xDF) then
    (mkState (N.land b 0x1F) 1 0 0x80 0xBF, [])
  else if (0xE0 <=? b) && (b <=? 0xEF) then
    (mkState (N.land b 0xF) 2 0
       (if b =? 0xE0 then 0xA0 else 0x80)
       (if b =? 0xED then 0x9F else 0xBF), [])
  else if (0xF0 <=? b) && (b <=? 0xF4) then
    (mkState (N.land b 0x7) 3 0
       (if b =? 0xF0 then 0x90 else 0x80)
       (if b =? 0xF4 then 0x8F else 0xBF), [])
  else (init, [REPLACEMENT]).

(** One byte through the decoder.  A byte that breaks a sequence is an
    error and is then read again as the start of a new sequence. *)
Definition handler (st : state) (b : N) : state * list N :=
  if bytes_needed st =? 0 then lead b
  else if (b <? lower_boundary st) || (upper_boundary st <? b) then
    let '(st', out) := lead b in (st', REPLACEMENT :: out)
  else
    let cp := N.lor (N.shiftl (code_point st) 6) (N.land b 0x3F) in
    if bytes_seen st + 1 =? bytes_needed st then (init, [cp])
    else (mkState cp (bytes_needed st) (bytes_seen st + 1) 0x80 0xBF, []).

(** The code points of a byte sequence; a sequence cut by the end of
    the input is one error. *)
Fixpoint run (st : state) (bs : list N) : list N :=
  match bs with
  | [] => if bytes_needed st =? 0 then [] else [REPLACEMENT]
  | b :: bs' => let '(st', out) := handler st b in out ++ run st' bs'
  end.

(** The decoder drops one leading byte order mark. *)
Definition strip_bom (cps : list N) : list N :=
  match cps with
  | c :: cps' => if c =? 0xFEFF then cps' else cps
  | [] => []
  end.

(** A code point as UTF-16 code units. *)
Definition utf16 (cp : N) : list N :=
  if cp <=? 0xFFFF then [cp]
  else [0xD800 + N.shiftr (cp - 0x10000) 10;
        0xDC00 + N.land (cp - 0x10000) 0x3FF].

Definition decode_N (bs : list N) : jsstring :=
  flat_map utf16 (strip_bom (run init bs)).

(** ** UTF-8 encoding: [encoder.encode] *)

Definition is_lead_surrogate (u : N) : bool := (0xD800 <=? u) && (u <=? 0xDBFF).
Definition is_trail_surrogate (u : N) : bool := (0xDC00 <=? u) && (u <=? 0xDFFF).

(** The scalar values of a string; a lone surrogate becomes U+FFFD. *)
Fixpoint scalars (s : jsstring) : list N :=
  match s with
  | [] => []
  | u :: s' =>
      if is_lead_surrogate u then
        match s' with
        | v :: s'' =>
            if is_trail_surrogate v
            then (0x10000 + N.shiftl (u - 0xD800) 10 + (v - 0xDC00)) :: scalars s''
            else REPLACEMENT :: scalars s'
        | [] => [REPLACEMENT]
        end
      else if is_trail_surrogate u then REPLACEMENT :: scalars s'
      else u :: scalars s'
  end.

Definition encode_scalar (cp : N) : list N :=
  if cp <=? 0x7F then [cp]
  else if cp <=? 0x7FF then
    [N.lor 0xC0 (N.shiftr cp 6); N.lor 0x80 (N.land cp 0x3F)]
  else if cp <=? 0xFFFF then
    [N.lor 0xE0 (N.shiftr cp 12);
     N.lor 0x80 (N.land (N.shiftr cp 6) 0x3F);
     N.lor 0x80 (N.land cp 0x3F)]
  else
    [N.lor 0xF0 (N.shiftr cp 18);
     N.lor 0x80 (N.land (N.shiftr cp 12) 0x3F);
     N.lor 0x80 (N.land (N.shiftr cp 6) 0x3F);
     N.lor 0x80 (N.land cp 0x3F)].

Definition encode_N (s : jsstring) : list N :=
  flat_map encode_scalar (scalars s).

End UTF8.

(** [decoder.decode(bytes)] *)
Definition decode (bs : Uint8Array) : jsstring :=
  UTF8.decode_N (map Byte.to_N bs).

(** [encoder.encode(string)] *)
Definition encode (s : jsstring) : Uint8Array :=
  map byte_of_N (UTF8.encode_N s).

(** ** String operations of ECMA-262 the program uses *)

(** WhiteSpace and LineTerminator code units, as [trim] and [Number] skip them. *)
Definition is_white_space (u : N) : bool :=
  (u =? 0x09) || (u =? 0x0A) || (u =? 0x0B) || (u =? 0x0C) || (u =? 0x0D)
  || (u =? 0x20) || (u =? 0xA0) || (u =? 0x1680)
  || ((0x2000 <=? u) && (u <=? 0x200A))
  || (u =? 0x2028) || (u =? 0x2029) || (u =? 0x202F) || (u =? 0x205F)
  || (u =? 0x3000) || (u =? 0xFEFF).

Fixpoint trimStart (s : jsstring) : jsstring :=
  match s with
  | u :: s' => if is_white_space u then trimStart s' else s
  | [] => []
  end.

Definition trimEnd (s : jsstring) : jsstring := rev (trimStart (rev s)).

Definition trim (s : jsstring) : jsstring := trimEnd (trimStart s).

(** [s.split(sep)] for a separator of one code unit. *)
Fixpoint split (sep : N) (s : jsstring) : list jsstring :=
  match s with
  | [] => [[]]
  | u :: s' =>
      if u =? sep then [] :: split sep s'
      else match split sep s' with
           | piece :: pieces => (u :: piece) :: pieces
           | [] => [[u]]
           end
  end.

Fixpoint startsWith (s prefix : jsstring) : bool :=
  match prefix, s with
  | [], _ => true
  | p :: prefix', u :: s' => (p =? u) && startsWith s' prefix'
  | _ :: _, [] => false
  end.

(** [s.includes(needle)] *)
Fixpoint includes (s needle : jsstring) : bool :=
  startsWith s needle ||
  match s with
  | _ :: s' => includes s' needle
  | [] => false
  end.

(** [toUpperCase] and [toLowerCase] on the ASCII letters; the program
    applies them to the command names only, which are ASCII. *)
Definition upper_unit (u : N) : N :=
  if (0x61 <=? u) && (u <=? 0x7A) then u - 0x20 else u.
Definition lower_unit (u : N) : N :=
  if (0x41 <=? u) && (u <=? 0x5A) then u + 0x20 else u.
Definition toUpperCase (s : jsstring) : jsstring := map upper_unit s.
Definition toLowerCase (s : jsstring) : jsstring := map lower_unit s.

(** The order of [Array.prototype.sort] without a comparator: strings
    by their code units. *)
Fixpoint jsstring_ltb (a b : jsstring) : bool :=
  match a, b with
  | [], [] => false
  | [], _ :: _ => true
  | _ :: _, [] => false
  | x :: a', y :: b' => (x <? y) || ((x =? y) && jsstring_ltb a' b')
  end.

Fixpoint insert_sorted (x : jsstring) (l : list jsstring) : list jsstring :=
  match l with
  | [] => [x]
  | y :: l' => if jsstring_ltb x y then x :: l else y :: insert_sorted x l'
  end.

(** [array.sort()]: stable, ascending. *)
Definition sort (l : list jsstring) : list jsstring :=
  fold_right insert_sorted [] l.

(** ** [Number(string)]: StringToNumber of ECMA-262

    The string is read as a StringNumericLiteral.  The result is kept
    as the exact value of the literal, sign, digits and decimal
    exponent; the program gives [Number] at most three code units and
    asks only whether the result is one of the integer keys of
    [ResponseCodes], which the exact value decides. *)

Module StringToNumber.

(** The characters of the StringNumericLiteral grammar. *)
Inductive chr :=
| c0 | c1 | c2 | c3 | c4 | c5 | c6 | c7 | c8 | c9
| cDot | cPlus | cMinus
| ce | cE | cx | cX | co | cO | cb | cB
| ca | cc | cd | cf | cA | cC | cD | cF
| cI | cn | ci | ct | cy
| cWhiteSpace | cOther.

(** The character a grammar symbol stands for. *)
Definition chr_char (c : chr) : option ascii :=
  match c with
  | c0 => Some "0" | c1 => Some "1" | c2 => Some "2" | c3 => Some "3"
  | c4 => Some "4" | c5 => Some "5" | c6 => Some "6" | c7 => Some "7"
  | c8 => Some "8" | c9 => Some "9"
  | cDot => Some "." | cPlus => Some "+" | cMinus => Some "-"
  | ce => Some "e" | cE => Some "E" | cx => Some "x" | cX => Some "X"
  | co => Some "o" | cO => Some "O" | cb => Some "b" | cB => Some "B"
  | ca => Some "a" | cc => Some "c" | cd => Some "d" | cf => Some "f"
  | cA => Some "A" | cC => Some "C" | cD => Some "D" | cF => Some "F"
  | cI => Some "I" | cn => Some "n" | ci => Some "i" | ct => Some "t"
  | cy => Some "y"
  | cWhiteSpace | cOther => None
  end%char.

Definition grammar_chrs : list chr :=
  [c0; c1; c2; c3; c4; c5; c6; c7; c8; c9; cDot; cPlus; cMinus;
   ce; cE; cx; cX; co; cO; cb; cB; ca; cc; cd; cf; cA; cC; cD; cF;
   cI; cn; ci; ct; cy].

Definition stands_for (u : N) (c : chr) : bool :=
  match chr_char c with
  | Some a => N_of_ascii a =? u
  | None => false
  end.

Definition classify (u : N) : chr :=
  if is_white_space u then cWhiteSpace
  else match find (stands_for u) grammar_chrs with
       | Some c => c
       | None => cOther
       end.

Inductive number :=
| NaN
| Infinity (negative : bool)
| Finite (negative : bool) (digits : N) (exponent : Z).

Definition digit (c : chr) : option N :=
  match c with
  | c0 => Some 0 | c1 => Some 1 | c2 => Some 2 | c3 => Some 3 | c4 => Some 4
  | c5 => Some 5 | c6 => Some 6 | c7 => Some 7 | c8 => Some 8 | c9 => Some 9
  | _ => None
  end.

Definition hex_digit (c : chr) : option N :=
  match c with
  | ca | cA => Some 10 | cb | cB => Some 11 | cc | cC => Some 12
  | cd | cD => Some 13 | ce | cE => Some 14 | cf | cF => Some 15
  | _ => digit c
  end.

(** DecimalDigits: the longest run of digits, its value added to
    [acc] and its length to [count]. *)
Fixpoint decimal_digits (acc : N) (count : Z) (cs : list chr) : N * Z * list chr :=
  match cs with
  | c :: cs' =>
      match digit c with
      | Some d => decimal_digits (10 * acc + d) (count + 1) cs'
      | None => (acc, count, cs)
      end
  | [] => (acc, count, [])
  end.

(** The digits of a NonDecimalIntegerLiteral, to the end of the string. *)
Fixpoint radix_digits (radix acc : N) (cs : list chr) : option N :=
  match cs with
  | [] => Some acc
  | c :: cs' =>
      match hex_digit c with
      | Some d => if d <? radix then radix_digits radix (radix * acc + d) cs' else None
      | None => None
      end
  end.

Definition non_decimal (radix : N) (cs : list chr) : number :=
  match cs with
  | [] => NaN
  | _ :: _ =>
      match radix_digits radix 0 cs with
      | Some v => Finite false v 0
      | None => NaN
      end
  end.

(** ExponentPart, optional, to the end of the string. *)
Definition exponent_part (cs : list chr) : option Z :=
  match cs with
  | [] => Some 0%Z
  | (ce | cE) :: cs' =>
      let '(negative, cs'') :=
        match cs' with
        | cPlus :: r => (false, r)
        | cMinus :: r => (true, r)
        | _ => (false, cs')
        end in
      match decimal_digits 0 0 cs'' with
      | (e, count, []) =>
          if (count =? 0)%Z then None
          else Some (if negative then (- Z.of_N e)%Z else Z.of_N e)
      | _ => None
      end
  | _ => None
  end.

(** StrUnsignedDecimalLiteral *)
Definition unsigned_decimal (negative : bool) (cs : list chr) : number :=
  match cs with
  | [cI; cn; cf; ci; cn; ci; ct; cy] => Infinity negative
  | _ =>
      let '(int, int_count, r) := decimal_digits 0 0 cs in
      match r with
      | cDot :: r' =>
          let '(mantissa, frac_count, r'') := decimal_digits int 0 r' in
          if (int_count =? 0)%Z && (frac_count =? 0)%Z then NaN
          else match exponent_part r'' with
               | Some e => Finite negative mantissa (e - frac_count)
               | None => NaN
               end
      | _ =>
          if (int_count =? 0)%Z then NaN
          else match exponent_part r with
               | Some e => Finite negative int e
               | None => NaN
               end
      end
  end.

(** StrNumericLiteral *)
Definition numeric_literal (cs : list chr) : number :=
  match cs with
  | c0 :: (cx | cX) :: cs' => non_decimal 16 cs'
  | c0 :: (co | cO) :: cs' => non_decimal 8 cs'
  | c0 :: (cb | cB) :: cs' => non_decimal 2 cs'
  | cPlus :: cs' => unsigned_decimal false cs'
  | cMinus :: cs' => unsigned_decimal true cs'
  | _ => unsigned_decimal false cs
  end.

Fixpoint skip_white_space (cs : list chr) : list chr :=
  match cs with
  | cWhiteSpace :: cs' => skip_white_space cs'
  | _ => cs
  end.

Definition parse (cs : list chr) : number :=
  match rev (skip_white_space (rev (skip_white_space cs))) with
  | [] => Finite false 0 0
  | cs' => numeric_literal cs'
  end.

(** The number is the positive integer [k]. *)
Definition is_integer (v : number) (k : N) : bool :=
  match v with
  | Finite false m e =>
      if (0 <=? e)%Z then m * 10 ^ Z.to_N e =? k
      else m =? k * 10 ^ Z.to_N (- e)
  | _ => false
  end.

End StringToNumber.

(** [Number(s)] *)
Definition Number_ (s : jsstring) : StringToNumber.number :=
  StringToNumber.parse (map StringToNumber.classify s).

(** ** The command recognizer *)

Definition command_names : list jsstring :=
  map str
    ["ARTICLE"; "AUTHINFO USER"; "AUTHINFO PASS"; "BODY"; "CAPABILITIES";
     "DATE"; "GROUP"; "HDR"; "HEAD"; "HELP"; "IHAVE"; "LAST"; "LIST";
     "LIST ACTIVE.TIMES"; "LIST ACTIVE"; "LIST DISTRIB.PATS"; "LIST HEADERS";
     "LIST NEWSGROUPS"; "LIST OVERVIEW.FMT"; "LISTGROUP"; "MODE READER";
     "NEWGROUPS"; "NEWNEWS"; "NEXT"; "OVER"; "POST"; "QUIT"; "STAT";
     "SLAVE"]%string.

(** [[...].sort().reduce(...)]: each name, in sorted order, pushed in
    upper case and then in lower case. *)
Definition COMMANDS : list Uint8Array :=
  fold_left
    (fun commands command =>
       commands ++ [encode (toUpperCase command)]
                ++ [encode (toLowerCase command)])
    (sort command_names) [].

(** [command.every((byte, i) => byte === line[i])]; [line[i]] past the
    end of the line is [undefined] and equals no byte. *)
Fixpoint every_byte_matches (command line : Uint8Array) : bool :=
  match command with
  | [] => true
  | c :: command' =>
      match line with
      | l :: line' => Byte.eqb c l && every_byte_matches command' line'
      | [] => false
      end
  end.

(** The loop of [parseCommand] over a table of commands. *)
Definition parseCommand_in (table : list Uint8Array) (line : Uint8Array)
  : option jsstring :=
  fold_left
    (fun result command =>
       if every_byte_matches command line
       then Some (toUpperCase (trim (decode command)))
       else result)
    table None.

Definition parseCommand (line : Uint8Array) : option jsstring :=
  parseCommand_in COMMANDS line.

(** ** The response normalizer *)

Definition ResponseCodeTable : list (N * jsstring) :=
  [(200, str "Service available, posting allowed");
   (201, str "Service available, posting prohibited");
   (281, str "Authentication accepted");
   (381, str "Password required");
   (400, str "Service temporarily unavailable");
   (481, str "Authentication failed/rejected");
   (482, str "Authentication commands issued out of sequence");
   (502, str "Service permanently unavailable")].

(** [ResponseCodes[n]]: the text under the key that [n] prints as. *)
Definition ResponseCodes (n : StringToNumber.number) : option jsstring :=
  option_map snd
    (find (fun entry => StringToNumber.is_integer n (fst entry)) ResponseCodeTable).

(** [line.subarray(0, 3)] *)
Definition subarray_0_3 (line : Uint8Array) : Uint8Array := firstn 3 line.

(** [ResponseStream]'s [transform]: the chunks it enqueues. *)
Definition ResponseStream_transform (line : Uint8Array) : list Uint8Array :=
  let status := decode (subarray_0_3 line) in
  let statusText := ResponseCodes (Number_ status) in
  if truthy statusText
  then [encode (status ++ str " " ++ template statusText ++ crlf)]
  else [line].

(** ** The authentication substitution *)

Record ConnectOptions := mkConnectOptions
  { user : option jsstring;
    pass : option jsstring;
    htpasswd : option jsstring }.

(** The [authinfo] object of a [RequestStream]. *)
Record authinfo := mkAuthinfo
  { authinfo_user : option jsstring;
    authinfo_authenticated : bool }.

Definition AUTHINFO_USER : jsstring := str "AUTHINFO USER".
Definition AUTHINFO_PASS : jsstring := str "AUTHINFO PASS".

(** [decoder.decode(line).trim().split(" ")[2]] *)
Definition third_token (line : Uint8Array) : option jsstring :=
  nth_error (split SPACE (trim (decode line))) 2.

(** [command?.includes("AUTHINFO ")] *)
Definition is_authinfo (command : option jsstring) : bool :=
  match command with
  | Some c => includes c (str "AUTHINFO ")
  | None => false
  end.

(** A transform stream: the state its constructor sets up and its
    [transform], which maps a chunk to the new state and the chunks
    passed to [controller.enqueue], in order. *)
Record TransformStream := mkTransformStream
  { stream_state : Type;
    stream_start : stream_state;
    stream_transform : stream_state -> Uint8Array -> stream_state * list Uint8Array }.

Section Proxy.

(** [validate(htpasswd, username, password)] of the htpasswd package:
    whether the credential store at the path accepts the pair. *)
Variable validate : option jsstring -> option jsstring -> option jsstring -> bool.

Variable options : ConnectOptions.

(** The state the constructor of [RequestStream] starts from. *)
Definition authinfo_start : authinfo :=
  mkAuthinfo (Some []) (negb (truthy (htpasswd options))).

(** [RequestStream]'s [transform]. *)
Definition RequestStream_transform (st : authinfo) (line : Uint8Array)
  : authinfo * list Uint8Array :=
  let command := parseCommand line in
  if is_authinfo command then
    if authinfo_authenticated st then (st, [line])
    else
      let arg := third_token line in
      if strict_eq command (Some AUTHINFO_USER) then
        (mkAuthinfo arg (authinfo_authenticated st),
         [encode (str "AUTHINFO USER " ++ template (user options) ++ crlf)])
      else if strict_eq command (Some AUTHINFO_PASS) then
        if validate (htpasswd options) (authinfo_user st) arg then
          (mkAuthinfo (authinfo_user st) true,
           [encode (str "AUTHINFO PASS " ++ template (pass options) ++ crlf)])
        else (st, [line])
      else (st, [line])
  else (st, [line]).

Definition RequestStream : TransformStream :=
  mkTransformStream authinfo authinfo_start RequestStream_transform.

End Proxy.

Definition ResponseStream : TransformStream :=
  mkTransformStream unit tt (fun st line => (st, ResponseStream_transform line)).

(** ** The pump *)

(** [readable.pipeThrough(stream)]: every chunk the source delivers goes
    through [transform], one call per chunk, in order. *)
Fixpoint pipeThrough (stream : TransformStream) (st : stream_state stream)
  (chunks : list Uint8Array) : stream_state stream * list Uint8Array :=
  match chunks with
  | [] => (st, [])
  | chunk :: chunks' =>
      let '(st', out) := stream_transform stream st chunk in
      let '(st'', outs) := pipeThrough stream st' chunks' in
      (st'', out ++ outs)
  end.

(** [pipe(source, target, stream)]: the chunks written to [target] when
    [source] delivers [chunks]. *)
Definition pipe (chunks : list Uint8Array) (stream : TransformStream)
  : list Uint8Array :=
  snd (pipeThrough stream (stream_start stream) chunks).

(** ** Notions the properties are stated with *)

(** What [parseCommand] returns for a table entry. *)
Definition canonical (command : Uint8Array) : jsstring :=
  toUpperCase (trim (decode command)).

Definition recognized_names : list jsstring := map canonical COMMANDS.

(** The line's leading bytes equal [p]. *)
Definition is_prefix (p line : Uint8Array) : Prop :=
  exists rest, line = p ++ rest.

(** The line begins with the name written all in upper case or all in
    lower case. *)
Definition spelled (name : jsstring) (line : Uint8Array) : Prop :=
  is_prefix (encode (toUpperCase name)) line \/
  is_prefix (encode (toLowerCase name)) line.

(** The line's leading bytes equal the name when letter case is ignored. *)
Definition matches_ignoring_case (name : jsstring) (line : Uint8Array) : bool :=
  jsstring_eqb (toUpperCase (decode (firstn (List.length name) line))) name.

Fixpoint bytes_eqb (a b : Uint8Array) : bool :=
  match a, b with
  | [], [] => true
  | x :: a', y :: b' => Byte.eqb x y && bytes_eqb a' b'
  | _, _ => false
  end.

(** [p] is a prefix of [q] and shorter. *)
Definition proper_prefix (p q : Uint8Array) : bool :=
  every_byte_matches p q && (List.length p <? List.length q)%nat.

(** In a table read from its last entry backwards, no entry is a proper
    prefix of one that comes after it in this reading: the last match of
    a scan is then the longest. *)
Fixpoint longest_last (reversed : list Uint8Array) : bool :=
  match reversed with
  | [] => true
  | x :: earlier =>
      forallb (fun y => negb (proper_prefix x y)) earlier && longest_last earlier
  end.

(** A credential store holding plain pairs, standing for the htpasswd
    file in the sessions worked out below. *)
Definition store_validate (store : list (jsstring * jsstring))
  (path username password : option jsstring) : bool :=
  existsb
    (fun entry =>
       strict_eq username (Some (fst entry)) && strict_eq password (Some (snd entry)))
    store.

Definition sample_options : ConnectOptions :=
  mkConnectOptions (Some (str "provider")) (Some (str "hunter2"))
    (Some (str "./.htpasswd")).

Definition line_user_alice : Uint8Array := bytes "AUTHINFO USER alice" ++ CRLF.
Definition line_pass_secret : Uint8Array := bytes "AUTHINFO PASS secret" ++ CRLF.

(** ** The normalizer, as a table of line beginnings *)

(** The three digits of a status code, as sent. *)
Definition status_digits (code : N) : Uint8Array :=
  map byte_of_N [48 + code / 100; 48 + (code / 10) mod 10; 48 + code mod 10].

Definition status_text (code : N) : option jsstring :=
  option_map snd (find (fun entry => fst entry =? code) ResponseCodeTable).

(** The normalizer of the claim: a line that begins with the three
    digits of a table code becomes code, space, canonical text, CRLF;
    any other line is left as it is. *)
Definition normalize_by_digits (line : Uint8Array) : list Uint8Array :=
  match find (fun entry => bytes_eqb (firstn 3 line) (status_digits (fst entry)))
          ResponseCodeTable with
  | Some entry => [status_digits (fst entry) ++ bytes " " ++ encode (snd entry) ++ CRLF]
  | None => [line]
  end.

(** The beginnings [Number] reads as a code of the table: the digits of
    each code, and 200 and 400 written with an exponent. *)
Definition status_spellings : list (Uint8Array * N) :=
  map (fun entry => (status_digits (fst entry), fst entry)) ResponseCodeTable
  ++ [(bytes "2e2", 200); (bytes "2E2", 200); (bytes "4e2", 400); (bytes "4E2", 400)].

(** The line begins with one of the spellings. *)
Definition begins_with_status (line : Uint8Array) : bool :=
  existsb (fun sp => bytes_eqb (firstn 3 line) (fst sp)) status_spellings.

(** Every grammar character, white space and the rest. *)
Definition all_chrs : list StringToNumber.chr :=
  StringToNumber.grammar_chrs ++ [StringToNumber.cWhiteSpace; StringToNumber.cOther].

(** [ResponseCodes] has an entry for what the characters read as. *)
Definition table_hit (cs : list StringToNumber.chr) : bool :=
  match ResponseCodes (StringToNumber.parse cs) with
  | Some _ => true
  | None => false
  end.

(** The spellings, as grammar characters. *)
Definition spelling_chrs (cs : list StringToNumber.chr) : bool :=
  match cs with
  | [StringToNumber.c2; StringToNumber.c0; StringToNumber.c0]
  | [StringToNumber.c2; StringToNumber.c0; StringToNumber.c1]
  | [StringToNumber.c2; StringToNumber.c8; StringToNumber.c1]
  | [StringToNumber.c3; StringToNumber.c8; StringToNumber.c1]
  | [StringToNumber.c4; StringToNumber.c0; StringToNumber.c0]
  | [StringToNumber.c4; StringToNumber.c8; StringToNumber.c1]
  | [StringToNumber.c4; StringToNumber.c8; StringToNumber.c2]
  | [StringToNumber.c5; StringToNumber.c0; StringToNumber.c2]
  | [StringToNumber.c2; StringToNumber.ce; StringToNumber.c2]
  | [StringToNumber.c2; StringToNumber.cE; StringToNumber.c2]
  | [StringToNumber.c4; StringToNumber.ce; StringToNumber.c2]
  | [StringToNumber.c4; StringToNumber.cE; StringToNumber.c2] => true
  | _ => false
  end.

(** A decoder state with a sequence in progress counts one. *)
Definition pending (st : UTF8.state) : nat :=
  if UTF8.bytes_needed st =? 0 then 0%nat else 1%nat.

Definition ascii_unit (u : N) : Prop := u < 0x80.

(** A multi-line response as the server sends it, one line to a chunk:
    the status line, the payload, the closing dot. *)
Definition article_response : list Uint8Array :=
  [bytes "220 1 <a@news.example> article" ++ CRLF;
   bytes "Subject: attendance" ++ CRLF;
   CRLF;
   bytes "200 people came." ++ CRLF;
   bytes "." ++ CRLF].

(** The framing a line pump is expected to do: the bytes of a direction,
    however the socket chunked them, cut after every CRLF; what is left
    at the end without CRLF is the last piece.  [current] holds the
    bytes of the line being read, last byte first. *)
Fixpoint crlf_lines_from (current stream : Uint8Array) : list Uint8Array :=
  match stream with
  | [] => match current with [] => [] | _ :: _ => [rev current] end
  | b :: rest =>
      match current with
      | c :: _ =>
          if Byte.eqb c x0d && Byte.eqb b x0a
          then rev (b :: current) :: crlf_lines_from [] rest
          else crlf_lines_from (b :: current) rest
      | [] => crlf_lines_from [b] rest
      end
  end.

Definition crlf_lines (chunks : list Uint8Array) : list Uint8Array :=
  crlf_lines_from [] (List.concat chunks).

Definition two_status_lines : Uint8Array :=
  bytes "200 news.example ready" ++ CRLF ++ bytes "215 list follows" ++ CRLF.

Definition two_request_lines : Uint8Array := line_user_alice ++ line_pass_secret.

(** ** Client lines in general *)

(** A user name or password as clients send it: one or more printable
    ASCII characters, none of them a space. *)
Definition plain_token (s : jsstring) : Prop :=
  s <> [] /\ Forall (fun u => 0x20 < u < 0x7F) s.

(** The line a client sends for a command with one argument. *)
Definition request_line (command argument : jsstring) : Uint8Array :=
  encode (command ++ SPACE :: argument ++ crlf).

(** What a request line may come out as: itself, or one of the two
    lines built from the operator's options. *)
Definition forwarded_as (options : ConnectOptions) (line out : Uint8Array) : Prop :=
  out = line \/
  out = encode (str "AUTHINFO USER " ++ template (user options) ++ crlf) \/
  out = encode (str "AUTHINFO PASS " ++ template (pass options) ++ crlf).

(** ** [serve]: where the proxy listens *)

Definition COLON : N := 58.

(** The options of [serve] that decide the listener. *)
Record ListenOptions := mkListenOptions
  { address : option jsstring;
    cert : option jsstring;
    key : option jsstring }.

(** The call that opens the listener: [Deno.listenTls] or [Deno.listen]. *)
Inductive listener :=
| listenTls (hostname : jsstring) (port : StringToNumber.number) (cert key : jsstring)
| listen (hostname : jsstring) (port : StringToNumber.number).

Definition listener_hostname (l : listener) : jsstring :=
  match l with
  | listenTls hostname _ _ _ => hostname
  | listen hostname _ => hostname
  end.

Definition listener_port (l : listener) : StringToNumber.number :=
  match l with
  | listenTls _ port _ _ => port
  | listen _ port => port
  end.

(** [Number(v)] of a string or [undefined]; [Number(undefined)] is NaN. *)
Definition Number_of (v : option jsstring) : StringToNumber.number :=
  match v with
  | Some s => Number_ s
  | None => StringToNumber.NaN
  end.

(** [serve] up to the opening of the listener: the address, [":119"]
    when none is given, is split at its colons, the first piece is the
    host name, ["0.0.0.0"] when empty, and [Number] of the second piece
    is the port; the listener is a TLS one when both a certificate and a
    key are given.  The port is kept as the value [Number] reads. *)
Definition serve_listener (options : ListenOptions) : listener :=
  let address :=
    match address options with
    | Some a => a
    | None => str ":119"
    end in
  let pieces := split COLON address in
  let hostname :=
    if truthy (nth_error pieces 0) then template (nth_error pieces 0)
    else str "0.0.0.0" in
  let port := Number_of (nth_error pieces 1) in
  if truthy (cert options) && truthy (key options)
  then listenTls hostname port (template (cert options)) (template (key options))
  else listen hostname port.

(** The host name [serve] takes from the first piece of the address. *)
Definition host_or_any (host : jsstring) : jsstring :=
  match host with
  | [] => str "0.0.0.0"
  | _ :: _ => host
  end.



(** ** The earlier [RequestStream] that tests for AUTHINFO with [startsWith]

    The repository keeps an earlier version of the proxy whose request
    transform does not go through [parseCommand]: it asks whether the
    line starts with [AUTHINFO] or [authinfo] and reads the kind of the
    command from the second token, in upper case.  [toUpperCase] takes
    any client text there and is a variable; a missing second token
    makes [type.toUpperCase()] throw, which is [None] below. *)

Module Earlier.

(** [startsWith(source, prefix)] of the bytes module. *)
Definition startsWith (source prefix : Uint8Array) : bool :=
  every_byte_matches prefix source.

Section Transform.

Variable toUpperCase_js : jsstring -> jsstring.
Variable validate : option jsstring -> option jsstring -> option jsstring -> bool.
Variable options : ConnectOptions.

(** The earlier [RequestStream]'s [transform]; [None] when it throws. *)
Definition RequestStream_transform (st : authinfo) (line : Uint8Array)
  : option (authinfo * list Uint8Array) :=
  if startsWith line (encode (str "AUTHINFO"))
     || startsWith line (encode (str "authinfo"))
  then
    if authinfo_authenticated st then Some (st, [line])
    else
      let pieces := split SPACE (trim (decode line)) in
      let type := nth_error pieces 1 in
      let arg := nth_error pieces 2 in
      match type with
      | None => None
      | Some type =>
          if jsstring_eqb (toUpperCase_js type) (str "USER") then
            Some (mkAuthinfo arg (authinfo_authenticated st),
                  [encode (str "AUTHINFO USER " ++ template (user options) ++ crlf)])
          else if jsstring_eqb (toUpperCase_js type) (str "PASS") then
            if validate (htpasswd options) (authinfo_user st) arg then
              Some (mkAuthinfo (authinfo_user st) true,
                    [encode (str "AUTHINFO PASS " ++ template (pass options) ++ crlf)])
            else Some (st, [line])
          else Some (st, [line])
      end
  else Some (st, [line]).

End Transform.

End Earlier.

(** * Properties *)

(** ** Equality tests *)

Lemma jsstring_eqb_eq (a b : jsstring) : jsstring_eqb a b = true <-> a = b.
Proof.
  revert b; induction a as [|x a IH]; intros [|y b]; simpl; split;
    try reflexivity; try discriminate.
  - intros H. apply andb_true_iff in H as [Hx Hab].
    apply N.eqb_eq in Hx. apply IH in Hab. congruence.
  - intros H. injection H as -> ->.
    apply andb_true_iff. split; [apply N.eqb_refl | now apply IH].
Qed.

Lemma strict_eq_some (c : option jsstring) (s : jsstring) :
  strict_eq c (Some s) = true <-> c = Some s.
Proof.
  destruct c as [x|]; simpl.
  - rewrite jsstring_eqb_eq. split; congruence.
  - split; discriminate.
Qed.

Lemma every_byte_matches_prefix (p line : Uint8Array) :
  every_byte_matches p line = true <-> is_prefix p line.
Proof.
  revert line; induction p as [|c p IH]; intros line; simpl.
  - split; [exists line; reflexivity | reflexivity].
  - destruct line as [|l line].
    + split; [discriminate | intros [rest H]; discriminate].
    + rewrite andb_true_iff, IH. split.
      * intros [Hc [rest ->]]. apply Byte.byte_dec_bl in Hc. subst.
        exists rest. reflexivity.
      * intros [rest H]. injection H as -> ->. split.
        -- now apply Byte.byte_dec_lb.
        -- exists rest. reflexivity.
Qed.

(** ** The recognizer returns the last matching entry of its table *)

Lemma parseCommand_in_last (table : list Uint8Array) (line : Uint8Array) :
  parseCommand_in table line =
  option_map canonical (find (fun c => every_byte_matches c line) (rev table)).
Proof.
  unfold parseCommand_in.
  induction table as [|x table IH] using rev_ind; [reflexivity|].
  rewrite fold_left_app, rev_app_distr. simpl.
  destruct (every_byte_matches x line); [reflexivity | exact IH].
Qed.

Lemma parseCommand_recognized (line : Uint8Array) (c : jsstring) :
  parseCommand line = Some c -> In c recognized_names.
Proof.
  unfold parseCommand. rewrite parseCommand_in_last.
  destruct (find _ _) as [cmd|] eqn:E; [|discriminate].
  intros H. injection H as <-.
  apply find_some in E as [Hin _]. apply in_rev in Hin.
  unfold recognized_names. now apply in_map.
Qed.

Lemma authinfo_names :
  forallb
    (fun c => implb (includes c (str "AUTHINFO "))
                (jsstring_eqb c AUTHINFO_USER || jsstring_eqb c AUTHINFO_PASS))
    recognized_names = true.
Proof. vm_compute. reflexivity. Qed.

Lemma is_authinfo_parseCommand (line : Uint8Array) :
  is_authinfo (parseCommand line) = true ->
  parseCommand line = Some AUTHINFO_USER \/ parseCommand line = Some AUTHINFO_PASS.
Proof.
  destruct (parseCommand line) as [c|] eqn:E; simpl; [|discriminate].
  intros Hinc. apply parseCommand_recognized in E.
  pose proof authinfo_names as H. rewrite forallb_forall in H.
  specialize (H c E). rewrite Hinc in H. simpl in H.
  apply orb_true_iff in H as [H|H]; apply jsstring_eqb_eq in H; subst; auto.
Qed.

(** ** The request transform, case by case *)

Section RequestFacts.

Variable validate : option jsstring -> option jsstring -> option jsstring -> bool.
Variable options : ConnectOptions.

Lemma transform_authenticated (st : authinfo) (line : Uint8Array) :
  authinfo_authenticated st = true ->
  RequestStream_transform validate options st line = (st, [line]).
Proof.
  intros Ha. unfold RequestStream_transform. rewrite Ha.
  destruct (is_authinfo _); reflexivity.
Qed.

Lemma transform_user (st : authinfo) (line : Uint8Array) :
  authinfo_authenticated st = false ->
  parseCommand line = Some AUTHINFO_USER ->
  RequestStream_transform validate options st line =
  (mkAuthinfo (third_token line) false,
   [encode (str "AUTHINFO USER " ++ template (user options) ++ crlf)]).
Proof.
  intros Ha Hc. unfold RequestStream_transform.
  rewrite Hc, Ha. reflexivity.
Qed.

Lemma transform_pass (st : authinfo) (line : Uint8Array) :
  authinfo_authenticated st = false ->
  parseCommand line = Some AUTHINFO_PASS ->
  RequestStream_transform validate options st line =
  if validate (htpasswd options) (authinfo_user st) (third_token line)
  then (mkAuthinfo (authinfo_user st) true,
        [encode (str "AUTHINFO PASS " ++ template (pass options) ++ crlf)])
  else (st, [line]).
Proof.
  intros Ha Hc. unfold RequestStream_transform.
  rewrite Hc, Ha. reflexivity.
Qed.

End RequestFacts.

(** ** Sessions of the request side *)

Lemma pipeThrough_cons (stream : TransformStream) (st : stream_state stream)
  (chunk : Uint8Array) (chunks : list Uint8Array) :
  pipeThrough stream st (chunk :: chunks) =
  (fst (pipeThrough stream (fst (stream_transform stream st chunk)) chunks),
   snd (stream_transform stream st chunk) ++
   snd (pipeThrough stream (fst (stream_transform stream st chunk)) chunks)).
Proof.
  simpl. destruct (stream_transform stream st chunk) as [st' out]. simpl.
  destruct (pipeThrough stream st' chunks). reflexivity.
Qed.

Lemma pipeThrough_app (stream : TransformStream) (st : stream_state stream)
  (before after : list Uint8Array) :
  pipeThrough stream st (before ++ after) =
  (fst (pipeThrough stream (fst (pipeThrough stream st before)) after),
   snd (pipeThrough stream st before) ++
   snd (pipeThrough stream (fst (pipeThrough stream st before)) after)).
Proof.
  revert st; induction before as [|c before IH]; intros st.
  - simpl. now destruct (pipeThrough stream st after).
  - rewrite <- app_comm_cons, !pipeThrough_cons, IH. simpl.
    now rewrite app_assoc.
Qed.

Lemma parseCommand_user_alice : parseCommand line_user_alice = Some AUTHINFO_USER.
Proof. vm_compute. reflexivity. Qed.

Lemma parseCommand_pass_secret : parseCommand line_pass_secret = Some AUTHINFO_PASS.
Proof. vm_compute. reflexivity. Qed.

Lemma third_token_user_alice : third_token line_user_alice = Some (str "alice").
Proof. vm_compute. reflexivity. Qed.

Lemma third_token_pass_secret : third_token line_pass_secret = Some (str "secret").
Proof. vm_compute. reflexivity. Qed.

(** With no credential store the session starts authenticated; with one
    it starts unauthenticated. *)
Lemma authinfo_start_authenticated (options : ConnectOptions) :
  authinfo_authenticated (authinfo_start options) = negb (truthy (htpasswd options)).
Proof. reflexivity. Qed.

(** C1.  In an unauthenticated session (the state a session with a
    credential store starts in), [AUTHINFO USER alice] followed by
    [AUTHINFO PASS secret], where the store accepts (alice, secret),
    sends upstream [AUTHINFO USER <configured user>] and then
    [AUTHINFO PASS <configured password>], each ended by CRLF and built
    from the operator's options only; the session has recorded alice
    as the claimed user and is authenticated. *)
Theorem auth_substitution_on_valid_credentials
  (validate : option jsstring -> option jsstring -> option jsstring -> bool)
  (options : ConnectOptions) (st : authinfo) :
  authinfo_authenticated st = false ->
  validate (htpasswd options) (Some (str "alice")) (Some (str "secret")) = true ->
  pipeThrough (RequestStream validate options) st [line_user_alice; line_pass_secret] =
  (mkAuthinfo (Some (str "alice")) true,
   [encode (str "AUTHINFO USER " ++ template (user options) ++ crlf);
    encode (str "AUTHINFO PASS " ++ template (pass options) ++ crlf)]).
Proof.
  intros Ha Hv. rewrite !pipeThrough_cons. simpl stream_transform.
  rewrite (transform_user validate options st line_user_alice Ha parseCommand_user_alice).
  cbn [fst snd].
  rewrite (transform_pass validate options
             (mkAuthinfo (third_token line_user_alice) false) line_pass_secret
             eq_refl parseCommand_pass_secret).
  rewrite third_token_user_alice, third_token_pass_secret.
  cbn [authinfo_user]. rewrite Hv. reflexivity.
Qed.

Lemma auth_substitution_on_valid_credentials_witness :
  pipeThrough
    (RequestStream (store_validate [(str "alice", str "secret")]) sample_options)
    (authinfo_start sample_options) [line_user_alice; line_pass_secret] =
  (mkAuthinfo (Some (str "alice")) true,
   [bytes "AUTHINFO USER provider" ++ CRLF; bytes "AUTHINFO PASS hunter2" ++ CRLF]).
Proof.
  exact (auth_substitution_on_valid_credentials
           (store_validate [(str "alice", str "secret")]) sample_options
           (authinfo_start sample_options) eq_refl eq_refl).
Defined.

(** C2 (what the program does).  When the store rejects (alice, secret)
    the password line goes upstream as the client sent it and the
    session stays unauthenticated, but the user line has already been
    replaced by the operator's: upstream sees
    [AUTHINFO USER provider] and not [AUTHINFO USER alice]. *)
Theorem rejected_credentials_user_line_replaced :
  pipeThrough (RequestStream (store_validate []) sample_options)
    (authinfo_start sample_options) [line_user_alice; line_pass_secret] =
  (mkAuthinfo (Some (str "alice")) false,
   [bytes "AUTHINFO USER provider" ++ CRLF; line_pass_secret])
  /\ [bytes "AUTHINFO USER provider" ++ CRLF; line_pass_secret] <>
     [line_user_alice; line_pass_secret].
Proof.
  split; [vm_compute; reflexivity | vm_compute; discriminate].
Qed.

Lemma authenticated_lines_pass
  (validate : option jsstring -> option jsstring -> option jsstring -> bool)
  (options : ConnectOptions) (st : authinfo) (lines : list Uint8Array) :
  authinfo_authenticated st = true ->
  pipeThrough (RequestStream validate options) st lines = (st, lines).
Proof.
  intros Ha. induction lines as [|line lines IH]; [reflexivity|].
  rewrite pipeThrough_cons. simpl stream_transform.
  rewrite (transform_authenticated validate options st line Ha).
  cbn [fst snd]. rewrite IH. reflexivity.
Qed.

(** C3.  From a state that is authenticated, or from the start of a
    session with no credential store configured, any further lines,
    the AUTHINFO lines too, go upstream as they came, one for one; the
    state is never changed again and the session is authenticated after
    every one of them. *)
Theorem authenticated_is_terminal
  (validate : option jsstring -> option jsstring -> option jsstring -> bool)
  (options : ConnectOptions) (st : authinfo) (lines : list Uint8Array) :
  authinfo_authenticated st = true \/
  (truthy (htpasswd options) = false /\ st = authinfo_start options) ->
  pipeThrough (RequestStream validate options) st lines = (st, lines) /\
  authinfo_authenticated
    (fst (pipeThrough (RequestStream validate options) st lines)) = true.
Proof.
  intros H.
  assert (Ha : authinfo_authenticated st = true).
  { destruct H as [H|[Hno ->]]; [exact H|].
    rewrite authinfo_start_authenticated, Hno. reflexivity. }
  rewrite (authenticated_lines_pass validate options st lines Ha).
  split; [reflexivity | exact Ha].
Qed.

Lemma authenticated_is_terminal_witness :
  pipeThrough
    (RequestStream (store_validate [])
       (mkConnectOptions (Some (str "provider")) (Some (str "hunter2")) None))
    (authinfo_start (mkConnectOptions (Some (str "provider")) (Some (str "hunter2")) None))
    [line_user_alice; line_pass_secret; bytes "QUIT" ++ CRLF] =
  (authinfo_start (mkConnectOptions (Some (str "provider")) (Some (str "hunter2")) None),
   [line_user_alice; line_pass_secret; bytes "QUIT" ++ CRLF]) /\
  authinfo_authenticated
    (fst (pipeThrough
            (RequestStream (store_validate [])
               (mkConnectOptions (Some (str "provider")) (Some (str "hunter2")) None))
            (authinfo_start
               (mkConnectOptions (Some (str "provider")) (Some (str "hunter2")) None))
            [line_user_alice; line_pass_secret; bytes "QUIT" ++ CRLF])) = true.
Proof.
  exact (authenticated_is_terminal (store_validate [])
           (mkConnectOptions (Some (str "provider")) (Some (str "hunter2")) None)
           (authinfo_start
              (mkConnectOptions (Some (str "provider")) (Some (str "hunter2")) None))
           [line_user_alice; line_pass_secret; bytes "QUIT" ++ CRLF]
           (or_intror (conj eq_refl eq_refl))).
Defined.

(** C6.  A line that is recognized neither as AUTHINFO USER nor as
    AUTHINFO PASS goes upstream byte for byte, and the session state
    is left as it was. *)
Theorem other_lines_pass_through
  (validate : option jsstring -> option jsstring -> option jsstring -> bool)
  (options : ConnectOptions) (st : authinfo) (line : Uint8Array) :
  parseCommand line <> Some AUTHINFO_USER ->
  parseCommand line <> Some AUTHINFO_PASS ->
  RequestStream_transform validate options st line = (st, [line]).
Proof.
  intros Hu Hp. unfold RequestStream_transform.
  destruct (is_authinfo (parseCommand line)) eqn:E; [|reflexivity].
  apply is_authinfo_parseCommand in E as [E|E]; contradiction.
Qed.

Lemma parseCommand_list_active_times :
  parseCommand (bytes "LIST ACTIVE.TIMES" ++ CRLF) = Some (str "LIST ACTIVE.TIMES").
Proof. vm_compute. reflexivity. Qed.

Lemma other_lines_pass_through_witness :
  RequestStream_transform (store_validate []) sample_options
    (authinfo_start sample_options) (bytes "LIST ACTIVE.TIMES" ++ CRLF) =
  (authinfo_start sample_options, [bytes "LIST ACTIVE.TIMES" ++ CRLF]).
Proof.
  apply (other_lines_pass_through (store_validate []) sample_options
           (authinfo_start sample_options) (bytes "LIST ACTIVE.TIMES" ++ CRLF)).
  - rewrite parseCommand_list_active_times. vm_compute. discriminate.
  - rewrite parseCommand_list_active_times. vm_compute. discriminate.
Defined.

(** ** The claimed user survives every line but AUTHINFO USER *)

Lemma transform_keeps_user
  (validate : option jsstring -> option jsstring -> option jsstring -> bool)
  (options : ConnectOptions) (st : authinfo) (line : Uint8Array) :
  parseCommand line <> Some AUTHINFO_USER ->
  authinfo_user (fst (RequestStream_transform validate options st line)) =
  authinfo_user st.
Proof.
  intros Hu.
  destruct (authinfo_authenticated st) eqn:Ha.
  - now rewrite transform_authenticated.
  - destruct (is_authinfo (parseCommand line)) eqn:E.
    + apply is_authinfo_parseCommand in E as [E|E]; [contradiction|].
      rewrite (transform_pass validate options st line Ha E).
      now destruct (validate _ _ _).
    + unfold RequestStream_transform. now rewrite E.
Qed.

Lemma pipeThrough_keeps_user
  (validate : option jsstring -> option jsstring -> option jsstring -> bool)
  (options : ConnectOptions) (lines : list Uint8Array) (st : authinfo) :
  Forall (fun l => parseCommand l <> Some AUTHINFO_USER) lines ->
  authinfo_user (fst (pipeThrough (RequestStream validate options) st lines)) =
  authinfo_user st.
Proof.
  intros H. revert st. induction H as [|l lines Hl _ IH]; intros st.
  - reflexivity.
  - rewrite pipeThrough_cons. cbn [fst]. rewrite IH.
    now apply transform_keeps_user.
Qed.

(** C7 fails as stated: a password line that comes before any user
    line is checked against the store under the empty user name, and a
    store that holds that pair has it replaced and the session
    authenticated. *)
Lemma pass_without_user_is_validated :
  authinfo_start sample_options = mkAuthinfo (Some []) false /\
  RequestStream_transform (store_validate [([], str "x")]) sample_options
    (authinfo_start sample_options) (bytes "AUTHINFO PASS x" ++ CRLF) =
  (mkAuthinfo (Some []) true, [bytes "AUTHINFO PASS hunter2" ++ CRLF]) /\
  bytes "AUTHINFO PASS hunter2" ++ CRLF <> bytes "AUTHINFO PASS x" ++ CRLF.
Proof.
  repeat split; try (vm_compute; reflexivity). vm_compute. discriminate.
Qed.

(** C7, amended.  In a session started with a credential store, after
    any lines none of which was an AUTHINFO USER line, the claimed user
    is still the empty string; if the session is still unauthenticated
    and the store rejects the empty user with the line's third token,
    an AUTHINFO PASS line goes upstream unmodified and the state, so
    the authenticated flag, stays as it was; the transform has a result
    on every such line. *)
Theorem pass_without_user_passes_through
  (validate : option jsstring -> option jsstring -> option jsstring -> bool)
  (options : ConnectOptions) (before : list Uint8Array) (line : Uint8Array) :
  Forall (fun l => parseCommand l <> Some AUTHINFO_USER) before ->
  authinfo_authenticated
    (fst (pipeThrough (RequestStream validate options) (authinfo_start options) before))
  = false ->
  parseCommand line = Some AUTHINFO_PASS ->
  validate (htpasswd options) (Some []) (third_token line) = false ->
  authinfo_user
    (fst (pipeThrough (RequestStream validate options) (authinfo_start options) before))
  = Some [] /\
  RequestStream_transform validate options
    (fst (pipeThrough (RequestStream validate options) (authinfo_start options) before))
    line =
  (fst (pipeThrough (RequestStream validate options) (authinfo_start options) before),
   [line]).
Proof.
  intros Hbefore Ha Hc Hv.
  pose proof (pipeThrough_keeps_user validate options before
                (authinfo_start options) Hbefore) as Hu.
  cbn [authinfo_start authinfo_user] in Hu.
  split; [exact Hu|].
  rewrite (transform_pass validate options _ line Ha Hc), Hu, Hv. reflexivity.
Qed.

Lemma pass_without_user_passes_through_witness :
  authinfo_user
    (fst (pipeThrough
            (RequestStream (store_validate [(str "alice", str "secret")]) sample_options)
            (authinfo_start sample_options) [bytes "MODE READER" ++ CRLF]))
  = Some [] /\
  RequestStream_transform (store_validate [(str "alice", str "secret")]) sample_options
    (fst (pipeThrough
            (RequestStream (store_validate [(str "alice", str "secret")]) sample_options)
            (authinfo_start sample_options) [bytes "MODE READER" ++ CRLF]))
    (bytes "AUTHINFO PASS x" ++ CRLF) =
  (fst (pipeThrough
          (RequestStream (store_validate [(str "alice", str "secret")]) sample_options)
          (authinfo_start sample_options) [bytes "MODE READER" ++ CRLF]),
   [bytes "AUTHINFO PASS x" ++ CRLF]).
Proof.
  apply (pass_without_user_passes_through
           (store_validate [(str "alice", str "secret")]) sample_options
           [bytes "MODE READER" ++ CRLF] (bytes "AUTHINFO PASS x" ++ CRLF)).
  - constructor; [vm_compute; discriminate | constructor].
  - vm_compute. reflexivity.
  - vm_compute. reflexivity.
  - vm_compute. reflexivity.
Defined.

(** ** [split] and the third token *)

Lemma split_without_separator (sep : N) (a : jsstring) :
  ~ In sep a -> split sep a = [a].
Proof.
  induction a as [|x a IH]; intros Hn; [reflexivity|].
  simpl. destruct (N.eqb_spec x sep) as [->|_].
  - exfalso. apply Hn. now left.
  - rewrite IH; [reflexivity|]. intros Hin. apply Hn. now right.
Qed.

Lemma split_at_separator (sep : N) (a rest : jsstring) :
  ~ In sep a -> split sep (a ++ sep :: rest) = a :: split sep rest.
Proof.
  induction a as [|x a IH]; intros Hn.
  - simpl. now rewrite N.eqb_refl.
  - simpl. destruct (N.eqb_spec x sep) as [->|_].
    + exfalso. apply Hn. now left.
    + rewrite IH; [reflexivity|]. intros Hin. apply Hn. now right.
Qed.

Lemma split_third_piece (a b c tail : jsstring) :
  ~ In SPACE a -> ~ In SPACE b -> ~ In SPACE c -> hd SPACE tail = SPACE ->
  nth_error (split SPACE (a ++ SPACE :: b ++ SPACE :: c ++ tail)) 2 = Some c.
Proof.
  intros Ha Hb Hc Ht.
  rewrite (split_at_separator SPACE a _ Ha), (split_at_separator SPACE b _ Hb).
  destruct tail as [|t tail].
  - rewrite app_nil_r, (split_without_separator SPACE c Hc). reflexivity.
  - simpl in Ht. subst t. rewrite (split_at_separator SPACE c _ Hc). reflexivity.
Qed.

(** C10.  On a recognized AUTHINFO USER or AUTHINFO PASS line in an
    unauthenticated session, what is recorded as the claimed user, or
    handed to the store as the password, is the third of the pieces the
    decoded, trimmed line falls into at its spaces: with the line
    reading [a b c] followed by nothing or by a space and anything, it
    is [c], and what follows the further space plays no part.  When the
    store rejects, the whole original line is what goes upstream. *)
Theorem argument_is_third_token
  (validate : option jsstring -> option jsstring -> option jsstring -> bool)
  (options : ConnectOptions) (st : authinfo) (line : Uint8Array)
  (command a b c tail : jsstring) :
  authinfo_authenticated st = false ->
  parseCommand line = Some command ->
  command = AUTHINFO_USER \/ command = AUTHINFO_PASS ->
  ~ In SPACE a -> ~ In SPACE b -> ~ In SPACE c -> hd SPACE tail = SPACE ->
  trim (decode line) = a ++ SPACE :: b ++ SPACE :: c ++ tail ->
  RequestStream_transform validate options st line =
  if jsstring_eqb command AUTHINFO_USER
  then (mkAuthinfo (Some c) false,
        [encode (str "AUTHINFO USER " ++ template (user options) ++ crlf)])
  else if validate (htpasswd options) (authinfo_user st) (Some c)
       then (mkAuthinfo (authinfo_user st) true,
             [encode (str "AUTHINFO PASS " ++ template (pass options) ++ crlf)])
       else (st, [line]).
Proof.
  intros Hst Hcmd Hkind Ha Hb Hc Ht Hline.
  assert (Harg : third_token line = Some c).
  { unfold third_token. rewrite Hline. now apply split_third_piece. }
  destruct Hkind as [-> | ->].
  - rewrite (transform_user validate options st line Hst Hcmd), Harg. reflexivity.
  - rewrite (transform_pass validate options st line Hst Hcmd), Harg. reflexivity.
Qed.

Lemma argument_is_third_token_witness :
  RequestStream_transform (store_validate [(str "alice", str "my")]) sample_options
    (mkAuthinfo (Some (str "alice")) false)
    (bytes "AUTHINFO PASS my secret phrase" ++ CRLF) =
  (mkAuthinfo (Some (str "alice")) true, [bytes "AUTHINFO PASS hunter2" ++ CRLF]).
Proof.
  refine (argument_is_third_token
            (store_validate [(str "alice", str "my")]) sample_options
            (mkAuthinfo (Some (str "alice")) false)
            (bytes "AUTHINFO PASS my secret phrase" ++ CRLF)
            AUTHINFO_PASS (str "AUTHINFO") (str "PASS") (str "my")
            (str " secret phrase") eq_refl _ (or_intror eq_refl) _ _ _ eq_refl _).
  - vm_compute. reflexivity.
  - vm_compute. intuition discriminate.
  - vm_compute. intuition discriminate.
  - vm_compute. intuition discriminate.
  - vm_compute. reflexivity.
Defined.

(** ** The command table *)

Lemma bytes_eqb_eq (a b : Uint8Array) : bytes_eqb a b = true <-> a = b.
Proof.
  revert b; induction a as [|x a IH]; intros [|y b]; simpl; split;
    try reflexivity; try discriminate.
  - intros H. apply andb_true_iff in H as [Hx Hab].
    apply Byte.byte_dec_bl in Hx. apply IH in Hab. congruence.
  - intros H. injection H as -> ->.
    apply andb_true_iff. split; [now apply Byte.byte_dec_lb | now apply IH].
Qed.

Lemma prefixes_comparable (p q line : Uint8Array) :
  every_byte_matches p line = true ->
  every_byte_matches q line = true ->
  (List.length p <= List.length q)%nat ->
  every_byte_matches p q = true.
Proof.
  revert q line; induction p as [|c p IH]; intros q line Hp Hq Hlen; [reflexivity|].
  destruct line as [|l line]; [discriminate|].
  destruct q as [|d q]; [simpl in Hlen; lia|].
  simpl in *. apply andb_true_iff in Hp as [Hc Hp].
  apply andb_true_iff in Hq as [Hd Hq].
  apply Byte.byte_dec_bl in Hc, Hd. subst.
  apply andb_true_iff. split; [now apply Byte.byte_dec_lb|].
  apply (IH q line); [assumption..|lia].
Qed.

Lemma find_first {A : Type} (f : A -> bool) (l : list A) (x : A) :
  find f l = Some x ->
  exists l1 l2, l = l1 ++ x :: l2 /\ forall y, In y l1 -> f y = false.
Proof.
  induction l as [|a l IH]; simpl; [discriminate|].
  destruct (f a) eqn:Fa.
  - intros H. injection H as ->. exists [], l. split; [reflexivity|]. intros y [].
  - intros H. destruct (IH H) as (l1 & l2 & -> & Hl1).
    exists (a :: l1), l2. split; [reflexivity|].
    intros y [<-|Hy]; [assumption | now apply Hl1].
Qed.

Lemma longest_last_after (l1 l2 : list Uint8Array) (x : Uint8Array) :
  longest_last (l1 ++ x :: l2) = true ->
  forallb (fun y => negb (proper_prefix x y)) l2 = true.
Proof.
  induction l1 as [|a l1 IH]; simpl; intros H;
    apply andb_true_iff in H as [H1 H2]; [assumption | now apply IH].
Qed.

(** The table as built by [sort] and [reduce] has the longer of two
    comparable entries later. *)
Lemma COMMANDS_longest_last : longest_last (rev COMMANDS) = true.
Proof. vm_compute. reflexivity. Qed.

(** Every table entry is a name of the vocabulary, written all in
    upper or all in lower case, and [parseCommand] reports that name. *)
Lemma COMMANDS_are_spellings :
  forallb
    (fun command =>
       existsb
         (fun name =>
            jsstring_eqb (canonical command) name
            && (bytes_eqb command (encode (toUpperCase name))
                || bytes_eqb command (encode (toLowerCase name)))
            && (List.length name =? List.length command)%nat)
         command_names)
    COMMANDS = true.
Proof. vm_compute. reflexivity. Qed.

(** Both spellings of every name are in the table. *)
Lemma spellings_in_COMMANDS :
  forallb
    (fun name =>
       existsb (bytes_eqb (encode (toUpperCase name))) COMMANDS
       && existsb (bytes_eqb (encode (toLowerCase name))) COMMANDS
       && (List.length (encode (toUpperCase name)) =? List.length name)%nat
       && (List.length (encode (toLowerCase name)) =? List.length name)%nat)
    command_names = true.
Proof. vm_compute. reflexivity. Qed.

Lemma table_entry_spells (command : Uint8Array) (line : Uint8Array) :
  In command COMMANDS -> every_byte_matches command line = true ->
  In (canonical command) command_names /\ spelled (canonical command) line /\
  List.length (canonical command) = List.length command.
Proof.
  intros Hin Hm. pose proof COMMANDS_are_spellings as H.
  rewrite forallb_forall in H. specialize (H command Hin).
  apply existsb_exists in H as (name & Hname & H).
  apply andb_true_iff in H as [H Hlen]. apply andb_true_iff in H as [Hcanon Hsp].
  apply jsstring_eqb_eq in Hcanon. apply Nat.eqb_eq in Hlen. rewrite Hcanon.
  split; [assumption|]. split; [|assumption].
  apply every_byte_matches_prefix in Hm.
  apply orb_true_iff in Hsp as [Hsp|Hsp]; apply bytes_eqb_eq in Hsp; subst command;
    [left | right]; assumption.
Qed.

Lemma spelled_table_entry (name : jsstring) (line : Uint8Array) :
  In name command_names -> spelled name line ->
  exists command, In command COMMANDS /\ every_byte_matches command line = true /\
                  List.length command = List.length name.
Proof.
  intros Hin Hsp. pose proof spellings_in_COMMANDS as H.
  rewrite forallb_forall in H. specialize (H name Hin).
  apply andb_true_iff in H as [H Hlow]. apply andb_true_iff in H as [H Hup].
  apply andb_true_iff in H as [Hu Hl].
  apply Nat.eqb_eq in Hlow, Hup.
  destruct Hsp as [Hp|Hp]; apply every_byte_matches_prefix in Hp.
  - apply existsb_exists in Hu as (command & Hc & E). apply bytes_eqb_eq in E.
    subst command. eauto.
  - apply existsb_exists in Hl as (command & Hc & E). apply bytes_eqb_eq in E.
    subst command. eauto.
Qed.

(** C5 fails as stated: matching is not case-insensitive.  [List] is
    LIST when case is ignored and is not recognized; [LIST Active.Times]
    is LIST ACTIVE.TIMES when case is ignored and is reported as LIST. *)
Lemma mixed_case_is_not_recognized :
  matches_ignoring_case (str "LIST") (bytes "List" ++ CRLF) = true /\
  parseCommand (bytes "List" ++ CRLF) = None /\
  matches_ignoring_case (str "LIST ACTIVE.TIMES") (bytes "LIST Active.Times" ++ CRLF) = true /\
  parseCommand (bytes "LIST Active.Times" ++ CRLF) = Some (str "LIST").
Proof. repeat split; vm_compute; reflexivity. Qed.

(** C5, amended.  [parseCommand] returns the upper-case name of a
    vocabulary entry that the line begins with, the entry written
    either all in upper case or all in lower case; of several such
    entries it returns the longest; and it returns no match exactly
    when the line begins with no entry so written. *)
Theorem parseCommand_longest_spelling (line : Uint8Array) :
  match parseCommand line with
  | Some name =>
      In name command_names /\ spelled name line /\
      forall other, In other command_names -> spelled other line ->
                    (List.length other <= List.length name)%nat
  | None => forall name, In name command_names -> ~ spelled name line
  end.
Proof.
  unfold parseCommand. rewrite parseCommand_in_last.
  destruct (find _ (rev COMMANDS)) as [command|] eqn:E; simpl.
  - pose proof (find_some _ _ E) as [Hin Hm]. apply in_rev in Hin.
    destruct (table_entry_spells command line Hin Hm) as (Hname & Hsp & Hlen).
    split; [assumption|]. split; [assumption|].
    intros other Hother Hsp'.
    destruct (spelled_table_entry other line Hother Hsp') as (c' & Hc' & Hm' & Hlen').
    rewrite Hlen, <- Hlen'.
    destruct (find_first _ _ _ E) as (l1 & l2 & Hrev & Hl1).
    apply in_rev in Hc'. rewrite Hrev in Hc'.
    apply in_app_or in Hc' as [Hc'|[<-|Hc']].
    + rewrite (Hl1 c' Hc') in Hm'. discriminate.
    + lia.
    + pose proof COMMANDS_longest_last as HL. rewrite Hrev in HL.
      apply longest_last_after in HL. rewrite forallb_forall in HL.
      specialize (HL c' Hc'). apply negb_true_iff in HL.
      unfold proper_prefix in HL. apply andb_false_iff in HL as [HL|HL].
      * destruct (Nat.le_gt_cases (List.length c') (List.length command)) as [Hle|Hgt];
          [assumption|].
        rewrite (prefixes_comparable command c' line Hm Hm') in HL by lia.
        discriminate.
      * apply Nat.ltb_ge in HL. assumption.
  - intros name Hname Hsp.
    destruct (spelled_table_entry name line Hname Hsp) as (c' & Hc' & Hm' & _).
    apply in_rev in Hc'.
    rewrite (find_none _ _ E c' Hc') in Hm'. discriminate.
Qed.

(** ** The decoder on short, plain input *)

Lemma lead_cases (b : N) :
  (b <= 0x7F /\ UTF8.lead b = (UTF8.init, [b])) \/
  (exists st', UTF8.lead b = (st', []) /\ UTF8.bytes_needed st' <> 0) \/
  UTF8.lead b = (UTF8.init, [UTF8.REPLACEMENT]).
Proof.
  unfold UTF8.lead.
  destruct (N.leb_spec b 0x7F) as [Hb|Hb]; [left; split; [exact Hb | reflexivity]|].
  right.
  destruct ((0xC2 <=? b) && (b <=? 0xDF));
    [left; eexists; split; [reflexivity | discriminate]|].
  destruct ((0xE0 <=? b) && (b <=? 0xEF));
    [left; eexists; split; [reflexivity | discriminate]|].
  destruct ((0xF0 <=? b) && (b <=? 0xF4));
    [left; eexists; split; [reflexivity | discriminate]|].
  right. reflexivity.
Qed.

Lemma handler_cases (st : UTF8.state) (b : N) :
  (UTF8.bytes_needed st = 0 /\ UTF8.handler st b = UTF8.lead b) \/
  (UTF8.bytes_needed st <> 0 /\
   (UTF8.handler st b = (fst (UTF8.lead b), UTF8.REPLACEMENT :: snd (UTF8.lead b))
    \/ (exists cp, UTF8.handler st b = (UTF8.init, [cp]))
    \/ (exists st', UTF8.handler st b = (st', []) /\ UTF8.bytes_needed st' <> 0))).
Proof.
  unfold UTF8.handler.
  destruct (N.eqb_spec (UTF8.bytes_needed st) 0) as [Hn|Hn];
    [left; split; [exact Hn | reflexivity]|].
  right. split; [exact Hn|].
  destruct ((b <? UTF8.lower_boundary st) || (UTF8.upper_boundary st <? b)).
  - left. now destruct (UTF8.lead b).
  - right. destruct (UTF8.bytes_seen st + 1 =? UTF8.bytes_needed st).
    + left. eexists. reflexivity.
    + right. eexists. split; [reflexivity | exact Hn].
Qed.

Lemma utf16_length (cp : N) :
  (1 <= List.length (UTF8.utf16 cp) <= 2)%nat.
Proof. unfold UTF8.utf16. destruct (cp <=? 0xFFFF); simpl; lia. Qed.

Lemma pending_init : pending UTF8.init = 0%nat.
Proof. reflexivity. Qed.

Lemma pending_needed (st : UTF8.state) :
  UTF8.bytes_needed st <> 0 -> pending st = 1%nat.
Proof.
  intros H. unfold pending. now destruct (N.eqb_spec (UTF8.bytes_needed st) 0).
Qed.

Lemma pending_idle (st : UTF8.state) :
  UTF8.bytes_needed st = 0 -> pending st = 0%nat.
Proof. intros H. unfold pending. now rewrite H. Qed.

Lemma lead_units (b : N) :
  (List.length (flat_map UTF8.utf16 (snd (UTF8.lead b))) + pending (fst (UTF8.lead b)) <= 1)%nat.
Proof.
  destruct (lead_cases b) as [[Hb ->]|[(st' & -> & Hn)| ->]]; simpl.
  - rewrite app_nil_r, pending_init. unfold UTF8.utf16.
    destruct (N.leb_spec b 0xFFFF) as [_|Hhigh]; [simpl; lia | exfalso; lia].
  - rewrite (pending_needed st' Hn). lia.
  - rewrite pending_init. lia.
Qed.

(** The decoder yields at most one code unit for each byte. *)
Lemma run_units (bs : list N) (st : UTF8.state) :
  (List.length (flat_map UTF8.utf16 (UTF8.run st bs)) <= List.length bs + pending st)%nat.
Proof.
  revert st; induction bs as [|b bs IH]; intros st.
  - simpl. unfold pending. destruct (UTF8.bytes_needed st =? 0); simpl; lia.
  - simpl UTF8.run.
    destruct (handler_cases st b) as [[Hn ->]|[Hn [-> |[[cp ->]|(st' & -> & Hn')]]]].
    + pose proof (lead_units b) as HL. destruct (UTF8.lead b) as [st' out].
      simpl in HL. rewrite flat_map_app, length_app.
      specialize (IH st'). rewrite (pending_idle st Hn). simpl. lia.
    + pose proof (lead_units b) as HL. destruct (UTF8.lead b) as [st' out].
      simpl in HL. cbn [fst snd]. rewrite flat_map_app, length_app.
      specialize (IH st'). rewrite (pending_needed st Hn).
      change (flat_map UTF8.utf16 (UTF8.REPLACEMENT :: out))
        with (UTF8.REPLACEMENT :: flat_map UTF8.utf16 out).
      simpl List.length. lia.
    + rewrite flat_map_app, length_app. specialize (IH UTF8.init).
      rewrite pending_init in IH. rewrite (pending_needed st Hn).
      simpl flat_map. rewrite app_nil_r.
      pose proof (utf16_length cp). simpl List.length. lia.
    + specialize (IH st'). rewrite (pending_needed st' Hn') in IH.
      rewrite (pending_needed st Hn). simpl. lia.
Qed.

Lemma replacement_not_ascii : ~ ascii_unit UTF8.REPLACEMENT.
Proof. unfold ascii_unit, UTF8.REPLACEMENT. lia. Qed.

(** Output that is all ASCII is no longer than the input, whatever the
    state the decoder starts in. *)
Lemma run_ascii_length (bs : list N) (st : UTF8.state) :
  Forall ascii_unit (UTF8.run st bs) ->
  (List.length (UTF8.run st bs) <= List.length bs)%nat.
Proof.
  revert st; induction bs as [|b bs IH]; intros st.
  - simpl. destruct (UTF8.bytes_needed st =? 0); [simpl; lia|].
    intros H. inversion H as [|? ? Hr _]. now apply replacement_not_ascii in Hr.
  - simpl UTF8.run.
    destruct (handler_cases st b) as [[Hn ->]|[Hn [-> |[[cp ->]|(st' & -> & Hn')]]]].
    + destruct (lead_cases b) as [[Hb ->]|[(st' & -> & Hn')| ->]]; simpl.
      * intros H. inversion H as [|? ? _ Ht]. specialize (IH _ Ht). lia.
      * intros H. specialize (IH _ H). lia.
      * intros H. inversion H as [|? ? Hr _]. now apply replacement_not_ascii in Hr.
    + cbn [fst snd]. intros H. simpl in H.
      inversion H as [|? ? Hr _]. now apply replacement_not_ascii in Hr.
    + simpl. intros H. inversion H as [|? ? _ Ht]. specialize (IH _ Ht). lia.
    + simpl. intros H. specialize (IH _ H). lia.
Qed.

(** Output that is all ASCII and as long as the input is the input. *)
Lemma run_ascii_identity (bs : list N) :
  Forall ascii_unit (UTF8.run UTF8.init bs) ->
  (List.length bs <= List.length (UTF8.run UTF8.init bs))%nat ->
  UTF8.run UTF8.init bs = bs.
Proof.
  induction bs as [|b bs IH]; [reflexivity|].
  simpl UTF8.run. change (UTF8.handler UTF8.init b) with (UTF8.lead b).
  destruct (lead_cases b) as [[Hb ->]|[(st' & -> & Hn')| ->]]; simpl.
  - intros H Hlen. inversion H as [|? ? _ Ht]. f_equal. apply IH; [exact Ht | lia].
  - intros H Hlen. pose proof (run_ascii_length bs st' H). lia.
  - intros H. inversion H as [|? ? Hr _]. now apply replacement_not_ascii in Hr.
Qed.

Lemma utf16_ascii (cps : list N) :
  Forall ascii_unit (flat_map UTF8.utf16 cps) -> flat_map UTF8.utf16 cps = cps.
Proof.
  induction cps as [|cp cps IH]; [reflexivity|].
  cbn [flat_map]. unfold UTF8.utf16 at 1 3.
  destruct (N.leb_spec cp 0xFFFF) as [Hc|Hc]; cbn [app]; intros H.
  - inversion H as [|? ? _ Ht]. f_equal. now apply IH.
  - apply Forall_inv in H. unfold ascii_unit in H.
    pose proof (N.le_0_l (N.shiftr (cp - 0x10000) 10)). lia.
Qed.

Lemma decode_N_length (bs : list N) :
  (List.length (UTF8.decode_N bs) <= List.length bs)%nat.
Proof.
  unfold UTF8.decode_N. pose proof (run_units bs UTF8.init) as H.
  rewrite pending_init in H.
  destruct (UTF8.run UTF8.init bs) as [|c r]; [simpl; lia|].
  unfold UTF8.strip_bom. destruct (c =? 0xFEFF); [|lia].
  simpl in H. rewrite length_app in H. lia.
Qed.

Lemma decode_N_ascii (bs : list N) (s : jsstring) :
  UTF8.decode_N bs = s -> Forall ascii_unit s ->
  (List.length bs <= List.length s)%nat -> bs = s.
Proof.
  unfold UTF8.decode_N. intros <- Hascii Hlen.
  pose proof (utf16_ascii _ Hascii) as Hid. rewrite Hid in *.
  pose proof (run_units bs UTF8.init) as Hunits. rewrite pending_init in Hunits.
  destruct (UTF8.run UTF8.init bs) as [|c r] eqn:Hrun.
  - simpl in *. destruct bs; [reflexivity | simpl in Hlen; lia].
  - unfold UTF8.strip_bom in *. destruct (c =? 0xFEFF).
    + exfalso. simpl in Hunits. rewrite length_app, Hid in Hunits.
      pose proof (utf16_length c). lia.
    + rewrite <- Hrun in *. symmetry. now apply run_ascii_identity.
Qed.

Lemma to_N_injective (a b : byte) : Byte.to_N a = Byte.to_N b -> a = b.
Proof.
  intros H. pose proof (Byte.of_to_N a) as Ha. rewrite H, Byte.of_to_N in Ha.
  congruence.
Qed.

Lemma map_to_N_injective (p q : Uint8Array) :
  map Byte.to_N p = map Byte.to_N q -> p = q.
Proof.
  revert q; induction p as [|a p IH]; intros [|b q] H; try discriminate; [reflexivity|].
  simpl in H. injection H as Hab Hpq. f_equal; [now apply to_N_injective | now apply IH].
Qed.

Lemma decode_length (p : Uint8Array) :
  (List.length (decode p) <= List.length p)%nat.
Proof.
  unfold decode. pose proof (decode_N_length (map Byte.to_N p)) as H.
  now rewrite length_map in H.
Qed.

(** ** What [Number] reads as a table code *)

Lemma all_chrs_complete (c : StringToNumber.chr) : In c all_chrs.
Proof. destruct c; vm_compute; tauto. Qed.

Lemma classify_char (u : N) (c : StringToNumber.chr) (a : ascii) :
  StringToNumber.classify u = c -> StringToNumber.chr_char c = Some a ->
  u = N_of_ascii a.
Proof.
  unfold StringToNumber.classify.
  destruct (is_white_space u); [intros <-; discriminate|].
  destruct (find _ _) as [c'|] eqn:F; [|intros <-; discriminate].
  intros <- Ha. apply find_some in F as [_ F].
  unfold StringToNumber.stands_for in F. rewrite Ha in F.
  apply N.eqb_eq in F. now symmetry.
Qed.

Lemma no_hit_empty : table_hit [] = false.
Proof. vm_compute. reflexivity. Qed.

Lemma no_hit_one :
  forallb (fun a => negb (table_hit [a])) all_chrs = true.
Proof. vm_compute. reflexivity. Qed.

Lemma no_hit_two :
  forallb (fun a => forallb (fun b => negb (table_hit [a; b])) all_chrs) all_chrs = true.
Proof. vm_compute. reflexivity. Qed.

Lemma hits_three :
  forallb
    (fun a =>
       forallb
         (fun b =>
            forallb (fun c => implb (table_hit [a; b; c]) (spelling_chrs [a; b; c]))
              all_chrs)
         all_chrs)
    all_chrs = true.
Proof. vm_compute. reflexivity. Qed.

(** Of the strings of at most three grammar characters, the twelve
    spellings alone read as a code of the table. *)
Lemma table_hit_spelling_chrs (cs : list StringToNumber.chr) :
  (List.length cs <= 3)%nat -> table_hit cs = true -> spelling_chrs cs = true.
Proof.
  destruct cs as [|a [|b [|c [|d cs]]]]; intros Hlen Hhit.
  - rewrite no_hit_empty in Hhit. discriminate.
  - pose proof no_hit_one as H. rewrite forallb_forall in H.
    specialize (H a (all_chrs_complete a)). rewrite Hhit in H. discriminate.
  - pose proof no_hit_two as H. rewrite forallb_forall in H.
    specialize (H a (all_chrs_complete a)). rewrite forallb_forall in H.
    specialize (H b (all_chrs_complete b)). rewrite Hhit in H. discriminate.
  - pose proof hits_three as H. rewrite forallb_forall in H.
    specialize (H a (all_chrs_complete a)). rewrite forallb_forall in H.
    specialize (H b (all_chrs_complete b)). rewrite forallb_forall in H.
    specialize (H c (all_chrs_complete c)). rewrite Hhit in H. exact H.
  - simpl in Hlen. lia.
Qed.

Ltac classified H :=
  match type of H with
  | ?c = StringToNumber.classify ?u =>
      let E := fresh in
      assert (E := classify_char u c _ (eq_sym H) eq_refl);
      vm_compute in E; subst u; clear H
  end.

Ltac by_character k H :=
  destruct k; simpl in H; try discriminate H.

Lemma spelling_chrs_units (s : jsstring) :
  spelling_chrs (map StringToNumber.classify s) = true ->
  existsb (fun sp => jsstring_eqb s (map Byte.to_N (fst sp))) status_spellings = true.
Proof.
  destruct s as [|a [|b [|c [|d s]]]]; cbn [map];
    try remember (StringToNumber.classify a) as ka eqn:Ea;
    try remember (StringToNumber.classify b) as kb eqn:Eb;
    try remember (StringToNumber.classify c) as kc eqn:Ec;
    try remember (StringToNumber.classify d) as kd eqn:Ed;
    intros H.
  - discriminate H.
  - by_character ka H.
  - by_character ka H; by_character kb H.
  - by_character ka H; by_character kb H; by_character kc H;
      classified Ea; classified Eb; classified Ec; vm_compute; reflexivity.
  - by_character ka H; by_character kb H; by_character kc H.
Qed.

Lemma spellings_plain :
  forallb
    (fun sp =>
       forallb (fun u => u <? 0x80) (map Byte.to_N (fst sp))
       && (List.length (fst sp) =? 3)%nat)
    status_spellings = true.
Proof. vm_compute. reflexivity. Qed.

(** If [ResponseCodes] has an entry for what the first three bytes
    decode and read to, the bytes are one of the spellings. *)
Lemma response_code_spelling (p : Uint8Array) (text : jsstring) :
  (List.length p <= 3)%nat ->
  ResponseCodes (Number_ (decode p)) = Some text ->
  exists sp, In sp status_spellings /\ p = fst sp.
Proof.
  intros Hlen Hcode.
  assert (Hhit : table_hit (map StringToNumber.classify (decode p)) = true).
  { unfold table_hit. unfold Number_ in Hcode. now rewrite Hcode. }
  apply table_hit_spelling_chrs in Hhit;
    [|rewrite length_map; pose proof (decode_length p); lia].
  apply spelling_chrs_units in Hhit.
  apply existsb_exists in Hhit as (sp & Hin & Heq).
  apply jsstring_eqb_eq in Heq.
  pose proof spellings_plain as Hplain. rewrite forallb_forall in Hplain.
  specialize (Hplain sp Hin). apply andb_true_iff in Hplain as [Hascii Hthree].
  apply Nat.eqb_eq in Hthree. rewrite forallb_forall in Hascii.
  exists sp. split; [exact Hin|].
  apply map_to_N_injective. transitivity (decode p); [|exact Heq].
  apply (decode_N_ascii (map Byte.to_N p) (decode p) eq_refl).
  - rewrite Heq. apply Forall_forall. intros u Hu.
    apply N.ltb_lt. now apply Hascii.
  - rewrite Heq, !length_map. lia.
Qed.

(** ** The normalizer *)

(** A line that begins with none of the spellings is left as it is. *)
Lemma ResponseStream_transform_other (line : Uint8Array) :
  find (fun sp => bytes_eqb (firstn 3 line) (fst sp)) status_spellings = None ->
  ResponseStream_transform line = [line].
Proof.
  intros F. unfold ResponseStream_transform, subarray_0_3.
  destruct (ResponseCodes (Number_ (decode (firstn 3 line)))) as [text|] eqn:E;
    [|reflexivity].
  exfalso.
  destruct (response_code_spelling (firstn 3 line) text) as (sp & Hin & Hp);
    [apply firstn_le_length | exact E |].
  pose proof (find_none _ _ F sp Hin) as Hno. cbv beta in Hno.
  rewrite Hp in Hno at 1.
  assert (Hyes : bytes_eqb (fst sp) (fst sp) = true) by now apply bytes_eqb_eq.
  congruence.
Qed.

(** C4 fails as stated: a line that begins [2e2] does not begin with
    the digits of a table code, so the claim has it pass unchanged, yet
    [Number] reads [2e2] as 200 and the line is rewritten; and what is
    written begins [2e2], not with the code 200. *)
Lemma exponent_spelling_is_rewritten :
  normalize_by_digits (bytes "2e2 reasons" ++ CRLF) = [bytes "2e2 reasons" ++ CRLF] /\
  ResponseStream_transform (bytes "2e2 reasons" ++ CRLF) =
  [bytes "2e2 Service available, posting allowed" ++ CRLF] /\
  ResponseStream_transform (bytes "2e2 reasons" ++ CRLF) <>
  normalize_by_digits (bytes "2e2 reasons" ++ CRLF) /\
  ResponseStream_transform (bytes "2e2 reasons" ++ CRLF) <>
  [bytes "200 Service available, posting allowed" ++ CRLF].
Proof.
  repeat split; try (vm_compute; reflexivity); vm_compute; discriminate.
Qed.

(** C4, amended.  The normalizer's output is the line's first three
    bytes, a space, the canonical text and CRLF exactly when those
    bytes are the three digits of a table code or one of [2e2], [2E2],
    [4e2], [4E2], which [Number] reads as 200 and 400; the text is that
    of the code so spelled.  Every other line comes out as it went in. *)
Theorem normalizer_by_spelling (line : Uint8Array) :
  ResponseStream_transform line =
  match find (fun sp => bytes_eqb (firstn 3 line) (fst sp)) status_spellings with
  | Some sp => [fst sp ++ bytes " " ++ encode (template (status_text (snd sp))) ++ CRLF]
  | None => [line]
  end.
Proof.
  destruct (find _ status_spellings) as [sp|] eqn:F.
  - apply find_some in F as [Hin Hp]. apply bytes_eqb_eq in Hp.
    unfold ResponseStream_transform, subarray_0_3. rewrite Hp. clear Hp.
    vm_compute in Hin.
    repeat (destruct Hin as [<-|Hin]; [vm_compute; reflexivity|]).
    contradiction.
  - now apply ResponseStream_transform_other.
Qed.

(** ** Payload lines *)

Lemma existsb_false_find {A : Type} (f : A -> bool) (l : list A) :
  existsb f l = false -> find f l = None.
Proof.
  induction l as [|x l IH]; simpl; [reflexivity|].
  destruct (f x); [discriminate | exact IH].
Qed.

Lemma pipe_response_app (before after : list Uint8Array) :
  pipe (before ++ after) ResponseStream =
  pipe before ResponseStream ++ pipe after ResponseStream.
Proof.
  unfold pipe. rewrite pipeThrough_app. cbn [snd].
  now destruct (fst (pipeThrough ResponseStream (stream_start ResponseStream) before)).
Qed.

Lemma pipe_response_cons (line : Uint8Array) (after : list Uint8Array) :
  pipe (line :: after) ResponseStream =
  ResponseStream_transform line ++ pipe after ResponseStream.
Proof. unfold pipe. rewrite pipeThrough_cons. reflexivity. Qed.

(** C9 fails as stated: the fourth line of this article is payload,
    begins with [200] and reaches the client rewritten. *)
Lemma payload_line_is_rewritten :
  nth_error article_response 3 = Some (bytes "200 people came." ++ CRLF) /\
  nth_error (pipe article_response ResponseStream) 3 =
  Some (bytes "200 Service available, posting allowed" ++ CRLF) /\
  pipe article_response ResponseStream <> article_response.
Proof.
  repeat split; try (vm_compute; reflexivity). vm_compute. discriminate.
Qed.

(** C9, amended.  The normalizer keeps no state and treats every line
    alike: a line that does not begin with one of the spellings of a
    table code, payload or not and whatever came before it, reaches the
    client byte for byte and in its place. *)
Theorem payload_line_relayed (before after : list Uint8Array) (line : Uint8Array) :
  begins_with_status line = false ->
  pipe (before ++ line :: after) ResponseStream =
  pipe before ResponseStream ++ line :: pipe after ResponseStream.
Proof.
  intros Hline. rewrite pipe_response_app, pipe_response_cons.
  rewrite (ResponseStream_transform_other line); [reflexivity|].
  now apply existsb_false_find.
Qed.

Lemma payload_line_relayed_witness :
  pipe ([bytes "220 1 <a@news.example> article" ++ CRLF]
        ++ (bytes "Subject: attendance" ++ CRLF) :: [bytes "." ++ CRLF])
    ResponseStream =
  pipe [bytes "220 1 <a@news.example> article" ++ CRLF] ResponseStream
  ++ (bytes "Subject: attendance" ++ CRLF) :: pipe [bytes "." ++ CRLF] ResponseStream.
Proof.
  apply (payload_line_relayed [bytes "220 1 <a@news.example> article" ++ CRLF]
           [bytes "." ++ CRLF] (bytes "Subject: attendance" ++ CRLF)).
  vm_compute. reflexivity.
Defined.

(** ** The pump *)

Lemma pipe_single_chunk (stream : TransformStream) (chunk : Uint8Array) :
  pipe [chunk] stream = snd (stream_transform stream (stream_start stream) chunk).
Proof.
  unfold pipe. rewrite pipeThrough_cons. simpl. now rewrite app_nil_r.
Qed.

(** C8 (what the program does).  [pipe] hands each chunk the socket
    delivers to [transform] as it is; nothing cuts the bytes at CRLF.
    Two lines read in one chunk are one call, and the second line is
    lost, where a pump that framed them would pass both, on the
    response side and on the request side; a line read in two chunks
    is two calls; a last fragment without CRLF is written without
    CRLF. *)
Theorem pipe_does_not_frame_lines :
  (crlf_lines [two_status_lines] =
     [bytes "200 news.example ready" ++ CRLF; bytes "215 list follows" ++ CRLF] /\
   pipe (crlf_lines [two_status_lines]) ResponseStream =
     [bytes "200 Service available, posting allowed" ++ CRLF;
      bytes "215 list follows" ++ CRLF] /\
   pipe [two_status_lines] ResponseStream =
     [bytes "200 Service available, posting allowed" ++ CRLF])
  /\
  (crlf_lines [two_request_lines] = [line_user_alice; line_pass_secret] /\
   pipe (crlf_lines [two_request_lines])
     (RequestStream (store_validate [(str "alice", str "secret")]) sample_options) =
     [bytes "AUTHINFO USER provider" ++ CRLF; bytes "AUTHINFO PASS hunter2" ++ CRLF] /\
   pipe [two_request_lines]
     (RequestStream (store_validate [(str "alice", str "secret")]) sample_options) =
     [bytes "AUTHINFO USER provider" ++ CRLF])
  /\
  (crlf_lines [bytes "AUTHINFO USER al"; bytes "ice" ++ CRLF] = [line_user_alice] /\
   pipe [bytes "AUTHINFO USER al"; bytes "ice" ++ CRLF]
     (RequestStream (store_validate [(str "alice", str "secret")]) sample_options) =
     [bytes "AUTHINFO USER provider" ++ CRLF; bytes "ice" ++ CRLF])
  /\
  pipe [bytes "GROUP misc.test" ++ CRLF; bytes "QUIT"]
    (RequestStream (store_validate [(str "alice", str "secret")]) sample_options) =
  [bytes "GROUP misc.test" ++ CRLF; bytes "QUIT"].
Proof. repeat split; vm_compute; reflexivity. Qed.

(** * Further properties of the request side *)

Lemma transform_output
  (validate : option jsstring -> option jsstring -> option jsstring -> bool)
  (options : ConnectOptions) (st : authinfo) (line : Uint8Array) :
  exists out,
    snd (RequestStream_transform validate options st line) = [out] /\
    forwarded_as options line out.
Proof.
  unfold forwarded_as.
  destruct (authinfo_authenticated st) eqn:Ha.
  - rewrite transform_authenticated by exact Ha.
    eexists; split; [reflexivity | auto].
  - destruct (is_authinfo (parseCommand line)) eqn:E.
    + apply is_authinfo_parseCommand in E as [E|E].
      * rewrite (transform_user validate options st line Ha E).
        eexists; split; [reflexivity | auto].
      * rewrite (transform_pass validate options st line Ha E).
        destruct (validate _ _ _); eexists; (split; [reflexivity | auto]).
    + unfold RequestStream_transform. rewrite E.
      eexists; split; [reflexivity | auto].
Qed.

(** X1.  The request pump writes one chunk for every chunk it reads, in
    the same order, and each is either the chunk as it came or one of
    the two lines built from the operator's user and password: nothing
    is dropped, doubled, moved or made up. *)
Theorem request_pump_line_for_line
  (validate : option jsstring -> option jsstring -> option jsstring -> bool)
  (options : ConnectOptions) (lines : list Uint8Array) (st : authinfo) :
  Forall2 (forwarded_as options) lines
    (snd (pipeThrough (RequestStream validate options) st lines)).
Proof.
  revert st. induction lines as [|line lines IH]; intros st.
  - constructor.
  - rewrite pipeThrough_cons.
    cbn [snd stream_transform stream_state RequestStream].
    destruct (transform_output validate options st line) as (out & -> & Hout).
    constructor; [exact Hout | apply IH].
Qed.

Lemma step_authenticates
  (validate : option jsstring -> option jsstring -> option jsstring -> bool)
  (options : ConnectOptions) (st : authinfo) (line : Uint8Array) :
  authinfo_authenticated st = false ->
  authinfo_authenticated (fst (RequestStream_transform validate options st line)) = true ->
  parseCommand line = Some AUTHINFO_PASS /\
  validate (htpasswd options) (authinfo_user st) (third_token line) = true.
Proof.
  intros Ha Hafter.
  destruct (is_authinfo (parseCommand line)) eqn:E.
  - apply is_authinfo_parseCommand in E as [E|E].
    + rewrite (transform_user validate options st line Ha E) in Hafter. discriminate.
    + rewrite (transform_pass validate options st line Ha E) in Hafter.
      destruct (validate _ _ _) eqn:V; [auto|].
      simpl in Hafter. congruence.
  - unfold RequestStream_transform in Hafter. rewrite E in Hafter.
    simpl in Hafter. congruence.
Qed.

(** X2.  A session that starts unauthenticated and ends authenticated
    has received an AUTHINFO PASS line that the credential store
    accepted, together with the user claimed at that moment, while the
    session was still unauthenticated: nothing else authenticates. *)
Theorem authentication_requires_validation
  (validate : option jsstring -> option jsstring -> option jsstring -> bool)
  (options : ConnectOptions) (lines : list Uint8Array) (st : authinfo) :
  authinfo_authenticated st = false ->
  authinfo_authenticated
    (fst (pipeThrough (RequestStream validate options) st lines)) = true ->
  exists before line after,
    lines = before ++ line :: after /\
    parseCommand line = Some AUTHINFO_PASS /\
    authinfo_authenticated
      (fst (pipeThrough (RequestStream validate options) st before)) = false /\
    validate (htpasswd options)
      (authinfo_user (fst (pipeThrough (RequestStream validate options) st before)))
      (third_token line) = true.
Proof.
  revert st. induction lines as [|line lines IH]; intros st Ha Hend.
  - simpl in Hend. congruence.
  - rewrite pipeThrough_cons in Hend. cbn [fst stream_transform RequestStream] in Hend.
    destruct (authinfo_authenticated
                (fst (RequestStream_transform validate options st line))) eqn:Hstep.
    + destruct (step_authenticates validate options st line Ha Hstep) as [Hc Hv].
      exists [], line, lines. simpl. auto.
    + destruct (IH _ Hstep Hend) as (before & l & after & -> & Hc & Hb & Hv).
      exists (line :: before), l, after.
      rewrite pipeThrough_cons. cbn [fst stream_transform RequestStream].
      auto.
Qed.

Lemma authentication_requires_validation_witness :
  exists before line after,
    [bytes "MODE READER" ++ CRLF; line_user_alice; line_pass_secret] =
      before ++ line :: after /\
    parseCommand line = Some AUTHINFO_PASS /\
    authinfo_authenticated
      (fst (pipeThrough
              (RequestStream (store_validate [(str "alice", str "secret")]) sample_options)
              (authinfo_start sample_options) before)) = false /\
    store_validate [(str "alice", str "secret")] (htpasswd sample_options)
      (authinfo_user
         (fst (pipeThrough
                 (RequestStream (store_validate [(str "alice", str "secret")])
                    sample_options)
                 (authinfo_start sample_options) before)))
      (third_token line) = true.
Proof.
  apply (authentication_requires_validation
           (store_validate [(str "alice", str "secret")]) sample_options
           [bytes "MODE READER" ++ CRLF; line_user_alice; line_pass_secret]
           (authinfo_start sample_options)).
  - reflexivity.
  - vm_compute. reflexivity.
Defined.

(** ** Plain text through the encoder and the decoder *)

Lemma ascii_check (s : jsstring) :
  forallb (fun u => u <? 0x80) s = true -> Forall ascii_unit s.
Proof.
  intros H. rewrite forallb_forall in H. apply Forall_forall.
  intros u Hu. apply N.ltb_lt. now apply H.
Qed.

Lemma scalars_ascii_app (a s : jsstring) :
  Forall ascii_unit a -> UTF8.scalars (a ++ s) = a ++ UTF8.scalars s.
Proof.
  induction 1 as [|u a Hu _ IH]; [reflexivity|].
  unfold ascii_unit in Hu. cbn [app UTF8.scalars].
  assert (Hl : UTF8.is_lead_surrogate u = false).
  { unfold UTF8.is_lead_surrogate. destruct (N.leb_spec 0xD800 u); [lia | reflexivity]. }
  assert (Ht : UTF8.is_trail_surrogate u = false).
  { unfold UTF8.is_trail_surrogate. destruct (N.leb_spec 0xDC00 u); [lia | reflexivity]. }
  rewrite Hl, Ht, IH. reflexivity.
Qed.

Lemma encode_scalars_ascii (a : jsstring) :
  Forall ascii_unit a -> flat_map UTF8.encode_scalar a = a.
Proof.
  induction 1 as [|u a Hu _ IH]; [reflexivity|].
  unfold ascii_unit in Hu. cbn [flat_map]. rewrite IH.
  unfold UTF8.encode_scalar. destruct (N.leb_spec u 0x7F); [reflexivity | lia].
Qed.

(** The encoder copies leading ASCII text byte for byte. *)
Lemma encode_ascii_app (a s : jsstring) :
  Forall ascii_unit a -> encode (a ++ s) = map byte_of_N a ++ encode s.
Proof.
  intros Ha. unfold encode, UTF8.encode_N.
  rewrite (scalars_ascii_app a s Ha), flat_map_app, map_app.
  now rewrite (encode_scalars_ascii a Ha).
Qed.

Lemma encode_ascii (a : jsstring) :
  Forall ascii_unit a -> encode a = map byte_of_N a.
Proof.
  intros Ha. rewrite <- (app_nil_r a) at 1.
  rewrite (encode_ascii_app a [] Ha). apply app_nil_r.
Qed.

Lemma to_N_byte_of_N (u : N) : u < 256 -> Byte.to_N (byte_of_N u) = u.
Proof.
  intros Hu. unfold byte_of_N. destruct (Byte.of_N u) as [b|] eqn:E.
  - now apply Byte.to_of_N.
  - apply Byte.of_N_None_iff in E. lia.
Qed.

Lemma run_ascii (s : list N) :
  Forall ascii_unit s -> UTF8.run UTF8.init s = s.
Proof.
  induction 1 as [|u s Hu _ IH]; [reflexivity|].
  unfold ascii_unit in Hu. cbn [UTF8.run].
  change (UTF8.handler UTF8.init u) with (UTF8.lead u).
  unfold UTF8.lead. destruct (N.leb_spec u 0x7F); [|lia].
  cbn [app]. now rewrite IH.
Qed.

Lemma utf16_of_ascii (s : list N) :
  Forall ascii_unit s -> flat_map UTF8.utf16 s = s.
Proof.
  induction 1 as [|u s Hu _ IH]; [reflexivity|].
  unfold ascii_unit in Hu. cbn [flat_map]. rewrite IH.
  unfold UTF8.utf16. destruct (N.leb_spec u 0xFFFF); [reflexivity | lia].
Qed.

(** ASCII text survives encoding and decoding. *)
Lemma decode_encode_ascii (s : jsstring) :
  Forall ascii_unit s -> decode (encode s) = s.
Proof.
  intros Hs. rewrite (encode_ascii s Hs). unfold decode, UTF8.decode_N.
  assert (Hmap : map Byte.to_N (map byte_of_N s) = s).
  { rewrite map_map. rewrite <- (map_id s) at 2. apply map_ext_in.
    intros u Hu. apply to_N_byte_of_N.
    rewrite Forall_forall in Hs. specialize (Hs u Hu). unfold ascii_unit in Hs. lia. }
  rewrite Hmap, (run_ascii s Hs).
  assert (Hbom : UTF8.strip_bom s = s).
  { destruct Hs as [|u s Hu _]; [reflexivity|].
    unfold ascii_unit in Hu. unfold UTF8.strip_bom.
    destruct (N.eqb_spec u 0xFEFF); [lia | reflexivity]. }
  rewrite Hbom. now apply utf16_of_ascii.
Qed.

(** ** Which lines the substitution can touch *)

Lemma parseCommand_spelled (line : Uint8Array) (name : jsstring) :
  parseCommand line = Some name -> spelled name line.
Proof.
  unfold parseCommand. rewrite parseCommand_in_last.
  destruct (find _ (rev COMMANDS)) as [command|] eqn:E; [|discriminate].
  intros H. injection H as <-.
  apply find_some in E as [Hin Hm]. apply in_rev in Hin.
  now destruct (table_entry_spells command line Hin Hm) as (_ & Hsp & _).
Qed.

Lemma authinfo_line_prefix (line : Uint8Array) :
  parseCommand line = Some AUTHINFO_USER \/ parseCommand line = Some AUTHINFO_PASS ->
  firstn 8 line = bytes "AUTHINFO" \/ firstn 8 line = bytes "authinfo".
Proof.
  intros [H|H]; apply parseCommand_spelled in H;
    destruct H as [[rest H]|[rest H]]; vm_compute in H; subst line;
    [left | right | left | right]; reflexivity.
Qed.

(** X3.  A line whose first eight bytes are neither [AUTHINFO] nor
    [authinfo] is never touched by the substitution, whatever the state
    of the session: it goes upstream as it came and the state stays.
    A client that writes the command in mixed case is such a line. *)
Theorem substitution_needs_authinfo_prefix
  (validate : option jsstring -> option jsstring -> option jsstring -> bool)
  (options : ConnectOptions) (st : authinfo) (line : Uint8Array) :
  firstn 8 line <> bytes "AUTHINFO" ->
  firstn 8 line <> bytes "authinfo" ->
  RequestStream_transform validate options st line = (st, [line]).
Proof.
  intros Hupper Hlower. unfold RequestStream_transform.
  destruct (is_authinfo (parseCommand line)) eqn:E; [|reflexivity].
  apply is_authinfo_parseCommand in E.
  apply authinfo_line_prefix in E as [E|E]; contradiction.
Qed.

Lemma substitution_needs_authinfo_prefix_witness :
  RequestStream_transform (store_validate [(str "alice", str "secret")]) sample_options
    (authinfo_start sample_options) (bytes "AuthInfo User alice" ++ CRLF) =
  (authinfo_start sample_options, [bytes "AuthInfo User alice" ++ CRLF]).
Proof.
  apply (substitution_needs_authinfo_prefix
           (store_validate [(str "alice", str "secret")]) sample_options
           (authinfo_start sample_options) (bytes "AuthInfo User alice" ++ CRLF)).
  - vm_compute. discriminate.
  - vm_compute. discriminate.
Defined.

Lemma parseCommand_user_line (rest : jsstring) :
  parseCommand (encode (str "AUTHINFO USER " ++ rest)) = Some AUTHINFO_USER.
Proof.
  rewrite encode_ascii_app by (apply ascii_check; reflexivity).
  generalize (encode rest). intros tail. vm_compute. reflexivity.
Qed.

Lemma parseCommand_pass_line (rest : jsstring) :
  parseCommand (encode (str "AUTHINFO PASS " ++ rest)) = Some AUTHINFO_PASS.
Proof.
  rewrite encode_ascii_app by (apply ascii_check; reflexivity).
  generalize (encode rest). intros tail. vm_compute. reflexivity.
Qed.

(** X6.  Whatever the substitution writes is the same command as what
    it read: a line it replaces is an AUTHINFO USER line replaced by an
    AUTHINFO USER line, or an AUTHINFO PASS line by an AUTHINFO PASS
    line, for any configured user and password, so a second proxy
    upstream recognizes it the same way. *)
Theorem command_kind_preserved
  (validate : option jsstring -> option jsstring -> option jsstring -> bool)
  (options : ConnectOptions) (st : authinfo) (line : Uint8Array) :
  Forall (fun out => parseCommand out = parseCommand line)
    (snd (RequestStream_transform validate options st line)).
Proof.
  destruct (authinfo_authenticated st) eqn:Ha.
  - rewrite transform_authenticated by exact Ha. repeat constructor.
  - destruct (is_authinfo (parseCommand line)) eqn:E.
    + apply is_authinfo_parseCommand in E as [E|E].
      * rewrite (transform_user validate options st line Ha E), E.
        constructor; [apply parseCommand_user_line | constructor].
      * rewrite (transform_pass validate options st line Ha E), E.
        destruct (validate _ _ _); (constructor; [|constructor]).
        -- apply parseCommand_pass_line.
        -- exact E.
    + unfold RequestStream_transform. rewrite E. repeat constructor.
Qed.

(** ** Lines made of plain tokens *)

Lemma plain_not_white_space (u : N) :
  0x20 < u < 0x7F -> is_white_space u = false.
Proof.
  intros Hu. unfold is_white_space.
  repeat match goal with
         | |- context [N.eqb u ?k] =>
             destruct (N.eqb_spec u k); [exfalso; lia|]
         end.
  destruct (N.leb_spec 0x2000 u); [exfalso; lia | reflexivity].
Qed.

Lemma plain_token_ascii (s : jsstring) : plain_token s -> Forall ascii_unit s.
Proof.
  intros [_ H]. eapply Forall_impl; [|exact H].
  intros u Hu. cbv beta in Hu. unfold ascii_unit. lia.
Qed.

Lemma plain_token_no_space (s : jsstring) : plain_token s -> ~ In SPACE s.
Proof.
  intros [_ H] Hin. rewrite Forall_forall in H. specialize (H SPACE Hin).
  cbv beta in H. unfold SPACE in H. lia.
Qed.

Lemma trimStart_plain (u : N) (s : jsstring) :
  0x20 < u < 0x7F -> trimStart (u :: s) = u :: s.
Proof. intros Hu. simpl. now rewrite (plain_not_white_space u Hu). Qed.

Lemma trimEnd_crlf (s : jsstring) (u : N) :
  0x20 < u < 0x7F -> trimEnd ((s ++ [u]) ++ crlf) = s ++ [u].
Proof.
  intros Hu. unfold trimEnd, crlf. rewrite !rev_app_distr.
  cbn [rev app trimStart].
  assert (Hcr : is_white_space CR = true) by reflexivity.
  assert (Hlf : is_white_space LF = true) by reflexivity.
  rewrite Hlf, Hcr, (plain_not_white_space u Hu).
  cbn [rev]. now rewrite rev_involutive.
Qed.

(** The third token of a line of three plain tokens is the third. *)
Lemma third_token_of_three (a b c : jsstring) :
  plain_token a -> plain_token b -> plain_token c ->
  third_token (encode (a ++ SPACE :: b ++ SPACE :: c ++ crlf)) = Some c.
Proof.
  intros Ha Hb Hc. unfold third_token.
  rewrite decode_encode_ascii.
  2:{ apply Forall_app. split; [now apply plain_token_ascii|].
      constructor; [unfold ascii_unit, SPACE; lia|].
      apply Forall_app. split; [now apply plain_token_ascii|].
      constructor; [unfold ascii_unit, SPACE; lia|].
      apply Forall_app. split; [now apply plain_token_ascii|].
      apply ascii_check. reflexivity. }
  assert (Htrim : trim (a ++ SPACE :: b ++ SPACE :: c ++ crlf)
                  = a ++ SPACE :: b ++ SPACE :: c).
  { unfold trim.
    destruct Ha as [Hne Hall]. destruct a as [|u a]; [contradiction|].
    cbn [app]. rewrite trimStart_plain by now inversion Hall.
    destruct Hc as [Hcne Hcall].
    destruct (exists_last Hcne) as (c0 & l & ->).
    apply Forall_app in Hcall as [_ Hl]. apply Forall_inv in Hl.
    replace (u :: a ++ SPACE :: b ++ SPACE :: (c0 ++ [l]) ++ crlf)
      with (((u :: a ++ SPACE :: b ++ SPACE :: c0) ++ [l]) ++ crlf).
    - rewrite (trimEnd_crlf _ l Hl). cbn [app].
      now rewrite <- !app_assoc, <- !app_comm_cons, <- !app_assoc.
    - cbn [app]. now rewrite <- !app_assoc, <- !app_comm_cons, <- !app_assoc. }
  rewrite Htrim. rewrite <- (app_nil_r c) at 1.
  apply split_third_piece; try reflexivity; now apply plain_token_no_space.
Qed.

Lemma plain_token_check (s : jsstring) :
  forallb (fun u => (0x20 <? u) && (u <? 0x7F)) s = true -> s <> [] -> plain_token s.
Proof.
  intros H Hne. split; [exact Hne|]. rewrite forallb_forall in H.
  apply Forall_forall. intros u Hu. specialize (H u Hu).
  apply andb_true_iff in H as [H1 H2]. apply N.ltb_lt in H1, H2. lia.
Qed.

(** X4.  Whatever plain user name and password the client sends, the
    user line records exactly that name and is replaced by the
    operator's user line, and the password line asks the credential
    store about exactly that pair: if it accepts, the operator's
    password line goes upstream and the session is authenticated; if
    not, the client's password line goes upstream as it came and the
    session stays unauthenticated. *)
Theorem credentials_session
  (validate : option jsstring -> option jsstring -> option jsstring -> bool)
  (options : ConnectOptions) (st : authinfo) (name secret : jsstring) :
  authinfo_authenticated st = false ->
  plain_token name -> plain_token secret ->
  pipeThrough (RequestStream validate options) st
    [request_line AUTHINFO_USER name; request_line AUTHINFO_PASS secret] =
  if validate (htpasswd options) (Some name) (Some secret)
  then (mkAuthinfo (Some name) true,
        [encode (str "AUTHINFO USER " ++ template (user options) ++ crlf);
         encode (str "AUTHINFO PASS " ++ template (pass options) ++ crlf)])
  else (mkAuthinfo (Some name) false,
        [encode (str "AUTHINFO USER " ++ template (user options) ++ crlf);
         request_line AUTHINFO_PASS secret]).
Proof.
  intros Ha Hname Hsecret.
  assert (Hauthinfo : plain_token (str "AUTHINFO"))
    by (apply plain_token_check; [reflexivity | discriminate]).
  assert (Huser : plain_token (str "USER"))
    by (apply plain_token_check; [reflexivity | discriminate]).
  assert (Hpass : plain_token (str "PASS"))
    by (apply plain_token_check; [reflexivity | discriminate]).
  assert (Hc1 : parseCommand (request_line AUTHINFO_USER name) = Some AUTHINFO_USER)
    by exact (parseCommand_user_line (name ++ crlf)).
  assert (Hc2 : parseCommand (request_line AUTHINFO_PASS secret) = Some AUTHINFO_PASS)
    by exact (parseCommand_pass_line (secret ++ crlf)).
  assert (Ht1 : third_token (request_line AUTHINFO_USER name) = Some name)
    by exact (third_token_of_three (str "AUTHINFO") (str "USER") name
                Hauthinfo Huser Hname).
  assert (Ht2 : third_token (request_line AUTHINFO_PASS secret) = Some secret)
    by exact (third_token_of_three (str "AUTHINFO") (str "PASS") secret
                Hauthinfo Hpass Hsecret).
  rewrite !pipeThrough_cons. simpl stream_transform.
  rewrite (transform_user validate options st _ Ha Hc1). cbn [fst snd].
  rewrite (transform_pass validate options (mkAuthinfo (third_token _) false) _
             eq_refl Hc2).
  rewrite Ht1, Ht2. cbn [authinfo_user].
  destruct (validate _ _ _); reflexivity.
Qed.

Lemma credentials_session_witness :
  pipeThrough
    (RequestStream (store_validate [(str "bob", str "pa55w0rd!")]) sample_options)
    (authinfo_start sample_options)
    [request_line AUTHINFO_USER (str "bob");
     request_line AUTHINFO_PASS (str "pa55w0rd!")] =
  (mkAuthinfo (Some (str "bob")) true,
   [bytes "AUTHINFO USER provider" ++ CRLF; bytes "AUTHINFO PASS hunter2" ++ CRLF]).
Proof.
  apply (credentials_session
           (store_validate [(str "bob", str "pa55w0rd!")]) sample_options
           (authinfo_start sample_options) (str "bob") (str "pa55w0rd!")).
  - reflexivity.
  - apply plain_token_check; [vm_compute; reflexivity | discriminate].
  - apply plain_token_check; [vm_compute; reflexivity | discriminate].
Defined.

(** X5.  An AUTHINFO USER line without a name, one whose decoded and
    trimmed text has a single space, leaves the claimed user undefined
    in an unauthenticated session, and is all the same replaced by the
    operator's user line. *)
Theorem user_line_without_name
  (validate : option jsstring -> option jsstring -> option jsstring -> bool)
  (options : ConnectOptions) (st : authinfo) (line : Uint8Array) (a b : jsstring) :
  authinfo_authenticated st = false ->
  parseCommand line = Some AUTHINFO_USER ->
  ~ In SPACE a -> ~ In SPACE b ->
  trim (decode line) = a ++ SPACE :: b ->
  RequestStream_transform validate options st line =
  (mkAuthinfo None false,
   [encode (str "AUTHINFO USER " ++ template (user options) ++ crlf)]).
Proof.
  intros Ha Hc Hna Hnb Htext.
  rewrite (transform_user validate options st line Ha Hc).
  unfold third_token. rewrite Htext, (split_at_separator SPACE a b Hna).
  rewrite (split_without_separator SPACE b Hnb). reflexivity.
Qed.

Lemma user_line_without_name_witness :
  RequestStream_transform (store_validate [(str "alice", str "secret")]) sample_options
    (authinfo_start sample_options) (bytes "AUTHINFO USER" ++ CRLF) =
  (mkAuthinfo None false, [bytes "AUTHINFO USER provider" ++ CRLF]).
Proof.
  refine (user_line_without_name
            (store_validate [(str "alice", str "secret")]) sample_options
            (authinfo_start sample_options) (bytes "AUTHINFO USER" ++ CRLF)
            (str "AUTHINFO") (str "USER") eq_refl _ _ _ _).
  - vm_compute. reflexivity.
  - vm_compute. intuition discriminate.
  - vm_compute. intuition discriminate.
  - vm_compute. reflexivity.
Defined.

(** X11.  The claimed user of a session is the third token of the
    last AUTHINFO USER line received while the session was
    unauthenticated: a later user line replaces an earlier one, and no
    other line, before or after authentication, changes it. *)
Theorem claimed_user_is_last_user_line
  (validate : option jsstring -> option jsstring -> option jsstring -> bool)
  (options : ConnectOptions) (st : authinfo)
  (before after : list Uint8Array) (line : Uint8Array) :
  authinfo_authenticated
    (fst (pipeThrough (RequestStream validate options) st before)) = false ->
  parseCommand line = Some AUTHINFO_USER ->
  Forall (fun l => parseCommand l <> Some AUTHINFO_USER) after ->
  authinfo_user
    (fst (pipeThrough (RequestStream validate options) st (before ++ line :: after)))
  = third_token line.
Proof.
  intros Ha Hc Hafter.
  rewrite pipeThrough_app. cbn [fst]. rewrite pipeThrough_cons. cbn [fst].
  rewrite (pipeThrough_keeps_user validate options after _ Hafter).
  cbn [stream_transform RequestStream].
  rewrite (transform_user validate options _ line Ha Hc). reflexivity.
Qed.

Lemma claimed_user_is_last_user_line_witness :
  authinfo_user
    (fst (pipeThrough
            (RequestStream (store_validate [(str "alice", str "secret")]) sample_options)
            (authinfo_start sample_options)
            ([line_user_alice] ++ (bytes "authinfo user bob" ++ CRLF)
               :: [bytes "LIST" ++ CRLF; line_pass_secret])))
  = Some (str "bob").
Proof.
  refine (eq_trans
            (claimed_user_is_last_user_line
               (store_validate [(str "alice", str "secret")]) sample_options
               (authinfo_start sample_options) [line_user_alice]
               [bytes "LIST" ++ CRLF; line_pass_secret]
               (bytes "authinfo user bob" ++ CRLF) _ _ _) _).
  - vm_compute. reflexivity.
  - vm_compute. reflexivity.
  - repeat constructor; vm_compute; discriminate.
  - vm_compute. reflexivity.
Defined.

(** * Further properties of the response side *)

Lemma ResponseStream_transform_spelled (line : Uint8Array) (sp : Uint8Array * N) :
  find (fun sp => bytes_eqb (firstn 3 line) (fst sp)) status_spellings = Some sp ->
  firstn 3 line = fst sp /\
  ResponseStream_transform line =
  [fst sp ++ bytes " " ++ encode (template (status_text (snd sp))) ++ CRLF] /\
  firstn 3 (fst sp ++ bytes " " ++ encode (template (status_text (snd sp))) ++ CRLF)
  = fst sp /\
  ResponseStream_transform
    (fst sp ++ bytes " " ++ encode (template (status_text (snd sp))) ++ CRLF) =
  [fst sp ++ bytes " " ++ encode (template (status_text (snd sp))) ++ CRLF].
Proof.
  intros F. apply find_some in F as [Hin Hp]. apply bytes_eqb_eq in Hp.
  split; [exact Hp|].
  unfold ResponseStream_transform at 1. unfold subarray_0_3. rewrite Hp. clear Hp.
  vm_compute in Hin.
  repeat (destruct Hin as [<-|Hin];
          [repeat split; vm_compute; reflexivity|]).
  contradiction.
Qed.

Lemma normalized_line (line : Uint8Array) :
  exists out,
    ResponseStream_transform line = [out] /\
    firstn 3 out = firstn 3 line /\
    ResponseStream_transform out = [out].
Proof.
  destruct (find (fun sp => bytes_eqb (firstn 3 line) (fst sp)) status_spellings)
    as [sp|] eqn:F.
  - destruct (ResponseStream_transform_spelled line sp F) as (Hp & Hout & H3 & Hagain).
    eexists. split; [exact Hout|]. split; [now rewrite Hp | exact Hagain].
  - exists line. rewrite (ResponseStream_transform_other line F). auto.
Qed.

(** X7.  Normalizing is idempotent: what the response pump has written,
    put through the response pump again, comes out unchanged, so a
    second proxy in the path alters nothing. *)
Theorem response_pump_idempotent (chunks : list Uint8Array) :
  pipe (pipe chunks ResponseStream) ResponseStream = pipe chunks ResponseStream.
Proof.
  induction chunks as [|line chunks IH]; [reflexivity|].
  rewrite pipe_response_cons.
  destruct (normalized_line line) as (out & -> & _ & Hagain).
  cbn [app]. rewrite pipe_response_cons, Hagain, IH. reflexivity.
Qed.

(** X8.  The response pump writes one chunk for every chunk it reads,
    in the same order, and never changes the first three bytes: the
    status a client reads at the head of a line is the status the
    server sent. *)
Theorem response_pump_keeps_status (chunks : list Uint8Array) :
  Forall2 (fun line out => firstn 3 out = firstn 3 line)
    chunks (pipe chunks ResponseStream).
Proof.
  induction chunks as [|line chunks IH]; [constructor|].
  rewrite pipe_response_cons.
  destruct (normalized_line line) as (out & -> & H3 & _).
  cbn [app]. constructor; [exact H3 | exact IH].
Qed.

(** X9.  A line of fewer than three bytes, such as the empty chunk or
    a bare CRLF, passes the normalizer unchanged. *)
Theorem short_line_unchanged (line : Uint8Array) :
  (List.length line < 3)%nat -> ResponseStream_transform line = [line].
Proof.
  intros Hlen. apply ResponseStream_transform_other.
  destruct (find _ status_spellings) as [sp|] eqn:F; [|reflexivity].
  exfalso. apply find_some in F as [Hin Hp]. apply bytes_eqb_eq in Hp.
  pose proof spellings_plain as Hplain. rewrite forallb_forall in Hplain.
  specialize (Hplain sp Hin). apply andb_true_iff in Hplain as [_ Hthree].
  apply Nat.eqb_eq in Hthree.
  pose proof (length_firstn 3 line) as Hle. rewrite Hp in Hle.
  unfold Uint8Array in *. lia.
Qed.

Lemma short_line_unchanged_witness :
  ResponseStream_transform CRLF = [CRLF] /\ ResponseStream_transform [] = [[]].
Proof.
  split.
  - apply (short_line_unchanged CRLF). unfold CRLF. simpl. lia.
  - apply (short_line_unchanged []). simpl. lia.
Defined.

Lemma existsb_true_find {A : Type} (f : A -> bool) (l : list A) :
  existsb f l = true -> exists x, find f l = Some x.
Proof.
  induction l as [|a l IH]; simpl; [discriminate|].
  destruct (f a); [eauto | exact IH].
Qed.

(** X10.  Of a line that begins with a status the normalizer knows,
    only the first three bytes count: the server's own text after the
    status, whatever it says, is dropped and the canonical text is
    written in its place. *)
Theorem status_text_discarded (line : Uint8Array) :
  begins_with_status line = true ->
  ResponseStream_transform line = ResponseStream_transform (firstn 3 line).
Proof.
  intros Hb. apply existsb_true_find in Hb as [sp F].
  destruct (ResponseStream_transform_spelled line sp F) as (_ & -> & _).
  assert (F' : find (fun sp => bytes_eqb (firstn 3 (firstn 3 line)) (fst sp))
                 status_spellings = Some sp).
  { rewrite firstn_firstn. exact F. }
  destruct (ResponseStream_transform_spelled (firstn 3 line) sp F') as (_ & -> & _).
  reflexivity.
Qed.

Lemma status_text_discarded_witness :
  ResponseStream_transform (bytes "200 news.example ready, posting ok" ++ CRLF) =
  ResponseStream_transform (bytes "200").
Proof.
  apply (status_text_discarded (bytes "200 news.example ready, posting ok" ++ CRLF)).
  vm_compute. reflexivity.
Defined.

(** * Further properties of the recognizer *)

Lemma every_byte_matches_firstn (command line : Uint8Array) (n : nat) :
  (List.length command <= n)%nat ->
  every_byte_matches command (firstn n line) = every_byte_matches command line.
Proof.
  revert line n; induction command as [|c command IH]; intros line n Hlen;
    [reflexivity|].
  simpl in Hlen. destruct n as [|n]; [lia|].
  destruct line as [|l line]; [reflexivity|].
  cbn [firstn every_byte_matches]. rewrite IH by lia. reflexivity.
Qed.

Lemma every_byte_matches_length (command line : Uint8Array) :
  every_byte_matches command line = true ->
  (List.length command <= List.length line)%nat.
Proof.
  revert line; induction command as [|c command IH]; intros line H; [simpl; lia|].
  destruct line as [|l line]; [discriminate|].
  simpl in H. apply andb_true_iff in H as [_ H]. apply IH in H. simpl. lia.
Qed.

Lemma parseCommand_in_ext (table : list Uint8Array) (line line' : Uint8Array) :
  (forall command, In command table ->
     every_byte_matches command line = every_byte_matches command line') ->
  parseCommand_in table line = parseCommand_in table line'.
Proof.
  intros H. rewrite !parseCommand_in_last. f_equal.
  assert (Hrev : forall command, In command (rev table) ->
            every_byte_matches command line = every_byte_matches command line').
  { intros c Hc. apply H. now apply in_rev. }
  clear H. induction (rev table) as [|c l IH]; [reflexivity|].
  simpl. rewrite (Hrev c (or_introl eq_refl)).
  destruct (every_byte_matches c line'); [reflexivity|].
  apply IH. intros c' Hc'. apply Hrev. now right.
Qed.

Lemma COMMANDS_lengths :
  forallb
    (fun command =>
       (3 <=? List.length command)%nat && (List.length command <=? 17)%nat)
    COMMANDS = true.
Proof. vm_compute. reflexivity. Qed.

(** X12.  The recognizer reads no further than the first seventeen
    bytes of a line, the length of the longest command: cutting the
    line there changes nothing in what it reports. *)
Theorem parseCommand_reads_seventeen_bytes (line : Uint8Array) :
  parseCommand (firstn 17 line) = parseCommand line.
Proof.
  unfold parseCommand. apply parseCommand_in_ext. intros command Hin.
  apply every_byte_matches_firstn.
  pose proof COMMANDS_lengths as H. rewrite forallb_forall in H.
  specialize (H command Hin). apply andb_true_iff in H as [_ H].
  now apply Nat.leb_le.
Qed.

(** X13.  A line of fewer than three bytes, the empty line among them,
    is no command. *)
Theorem parseCommand_short_line (line : Uint8Array) :
  (List.length line < 3)%nat -> parseCommand line = None.
Proof.
  intros Hlen. unfold parseCommand. rewrite parseCommand_in_last.
  destruct (find _ (rev COMMANDS)) as [command|] eqn:F; [|reflexivity].
  exfalso. apply find_some in F as [Hin Hm]. apply in_rev in Hin.
  apply every_byte_matches_length in Hm.
  pose proof COMMANDS_lengths as H. rewrite forallb_forall in H.
  specialize (H command Hin). apply andb_true_iff in H as [H _].
  apply Nat.leb_le in H. lia.
Qed.

Lemma parseCommand_short_line_witness :
  parseCommand CRLF = None /\ parseCommand [] = None.
Proof.
  split.
  - apply (parseCommand_short_line CRLF). unfold CRLF. simpl. lia.
  - apply (parseCommand_short_line []). simpl. lia.
Defined.

(** * The listening address *)









Lemma truthy_host (host : jsstring) :
  (if truthy (Some host) then template (Some host) else str "0.0.0.0")
  = host_or_any host.
Proof. destruct host; reflexivity. Qed.



(** X15.  An address without a colon gives no port: the whole address
    is the host name and the port [serve] listens on is NaN. *)
Theorem serve_address_without_port (options : ListenOptions) (a : jsstring) :
  address options = Some a -> ~ In COLON a ->
  listener_hostname (serve_listener options) = host_or_any a /\
  listener_port (serve_listener options) = StringToNumber.NaN.
Proof.
  intros Haddr Ha. unfold serve_listener. rewrite Haddr.
  rewrite (split_without_separator COLON a Ha).
  cbn [nth_error Number_of]. rewrite truthy_host.
  destruct (truthy (cert options) && truthy (key options)); split; reflexivity.
Qed.

Lemma serve_address_without_port_witness :
  listener_hostname
    (serve_listener (mkListenOptions (Some (str "localhost")) None None))
  = str "localhost" /\
  listener_port
    (serve_listener (mkListenOptions (Some (str "localhost")) None None))
  = StringToNumber.NaN.
Proof.
  apply (serve_address_without_port
           (mkListenOptions (Some (str "localhost")) None None) (str "localhost")).
  - reflexivity.
  - vm_compute. intuition discriminate.
Defined.

(** X16.  Of an address only the pieces before the second colon count:
    what follows a second colon changes neither the host nor the port,
    so an IPv6 literal is not read as one. *)
Theorem serve_ignores_after_second_colon
  (a b rest : jsstring) (cert key : option jsstring) :
  ~ In COLON a -> ~ In COLON b ->
  serve_listener (mkListenOptions (Some (a ++ COLON :: b ++ COLON :: rest)) cert key)
  = serve_listener (mkListenOptions (Some (a ++ COLON :: b)) cert key).
Proof.
  intros Ha Hb. unfold serve_listener. cbn [address].
  rewrite !(split_at_separator COLON a _ Ha).
  rewrite (split_at_separator COLON b rest Hb), (split_without_separator COLON b Hb).
  reflexivity.
Qed.

Lemma serve_ignores_after_second_colon_witness :
  serve_listener (mkListenOptions (Some (str "[::1]:119")) None None)
  = listen (str "[") (StringToNumber.Finite false 0 0).
Proof.
  refine (eq_trans
            (serve_ignores_after_second_colon (str "[") [] (str "1]:119") None None _ _)
            _).
  - vm_compute. intuition discriminate.
  - intros [].
  - vm_compute. reflexivity.
Defined.

(** * The earlier request transform *)




(** X18.  In the earlier transform too, on a line that starts with
    [AUTHINFO] or [authinfo] in an unauthenticated session, the kind of
    the command is the second token in upper case and the argument
    recorded or handed to the store is the third token alone; what
    follows a further space plays no part, and a rejected password
    line goes upstream whole. *)
Theorem earlier_argument_is_third_token
  (toUpperCase_js : jsstring -> jsstring)
  (validate : option jsstring -> option jsstring -> option jsstring -> bool)
  (options : ConnectOptions) (st : authinfo) (line : Uint8Array)
  (a b c tail : jsstring) :
  (Earlier.startsWith line (encode (str "AUTHINFO"))
   || Earlier.startsWith line (encode (str "authinfo"))) = true ->
  authinfo_authenticated st = false ->
  ~ In SPACE a -> ~ In SPACE b -> ~ In SPACE c -> hd SPACE tail = SPACE ->
  trim (decode line) = a ++ SPACE :: b ++ SPACE :: c ++ tail ->
  Earlier.RequestStream_transform toUpperCase_js validate options st line =
  Some
    (if jsstring_eqb (toUpperCase_js b) (str "USER")
     then (mkAuthinfo (Some c) false,
           [encode (str "AUTHINFO USER " ++ template (user options) ++ crlf)])
     else if jsstring_eqb (toUpperCase_js b) (str "PASS")
          then if validate (htpasswd options) (authinfo_user st) (Some c)
               then (mkAuthinfo (authinfo_user st) true,
                     [encode (str "AUTHINFO PASS " ++ template (pass options) ++ crlf)])
               else (st, [line])
          else (st, [line])).
Proof.
  intros Hstart Hst Ha Hb Hc Ht Htext.
  unfold Earlier.RequestStream_transform. rewrite Hstart, Hst, Htext.
  rewrite (split_third_piece a b c tail Ha Hb Hc Ht).
  rewrite (split_at_separator SPACE a _ Ha), (split_at_separator SPACE b _ Hb).
  cbn [nth_error].
  destruct (jsstring_eqb (toUpperCase_js b) (str "USER")); [reflexivity|].
  destruct (jsstring_eqb (toUpperCase_js b) (str "PASS")); [|reflexivity].
  destruct (validate _ _ _); reflexivity.
Qed.

Lemma earlier_argument_is_third_token_witness :
  Earlier.RequestStream_transform toUpperCase
    (store_validate [(str "alice", str "my")]) sample_options
    (mkAuthinfo (Some (str "alice")) false)
    (bytes "AUTHINFO Pass my secret phrase" ++ CRLF) =
  Some (mkAuthinfo (Some (str "alice")) true, [bytes "AUTHINFO PASS hunter2" ++ CRLF]).
Proof.
  refine (earlier_argument_is_third_token toUpperCase
            (store_validate [(str "alice", str "my")]) sample_options
            (mkAuthinfo (Some (str "alice")) false)
            (bytes "AUTHINFO Pass my secret phrase" ++ CRLF)
            (str "AUTHINFO") (str "Pass") (str "my") (str " secret phrase")
            _ eq_refl _ _ _ eq_refl _).
  - vm_compute. reflexivity.
  - vm_compute. intuition discriminate.
  - vm_compute. intuition discriminate.
  - vm_compute. intuition discriminate.
  - vm_compute. reflexivity.
Defined.
